(** * optimize_photos.py: a shallow embedding and its specification

    The script renames and recompresses a folder of photographs.  This file
    embeds its three functions, [get_exif_datetime], [optimize_image] and
    [process_photos], over an explicit model of the file system and of the
    console, and proves or refutes the statements of the specification.

    The libraries the script calls (piexif, Pillow, [datetime], [shutil]) are
    not part of the repository.  A file is described by what those calls
    return on it; what the libraries compute and the script only passes on
    (parsing a timestamp string, serialising a metadata dictionary, encoding
    a JPEG) is a parameter of the development. *)

From stdpp Require Import gmap strings list fin_maps pretty sorting.
From Stdlib Require Import ZArith Lia Ascii.
From Stdlib Require Floats.SpecFloat.

Open Scope string_scope.
Open Scope list_scope.
Open Scope Z_scope.

#[local] Set Warnings "-register-all".

(** ** Python values *)

(** The exception classes that occur. Every one of them derives from
    [Exception], so [except Exception] and a bare [except] catch them all. *)
Inductive exn :=
  | FileNotFoundError
  | SameFileError
  | InvalidImageDataError
  | UnidentifiedImageError
  | AttributeError
  | ValueError
  | ZeroDivisionError
  | OverflowError
  | OSError.

Inductive result (A : Type) :=
  | Ok (a : A)
  | Raise (e : exn).
Arguments Ok {A} a.
Arguments Raise {A} e.

(** [datetime.datetime], down to the second. *)
Record datetime := {
  year : N; month : N; day : N; hour : N; minute : N; second : N
}.

(** Python floats are IEEE 754 binary64 numbers. *)
Module Float.
Import SpecFloat.

Definition prec : Z := 53.
Definition emax : Z := 1024.

Definition finite (x : spec_float) : bool :=
  match x with
  | S754_zero _ | S754_finite _ _ _ => true
  | _ => false
  end.

(** [float(n)] for an int [n]: rounded to nearest even, [OverflowError]
    when out of range. *)
Definition of_int (n : Z) : result spec_float :=
  let x := binary_normalize prec emax n 0 false in
  if finite x then Ok x else Raise OverflowError.

(** [a / b] for ints [a] and [b]: the correctly rounded quotient. *)
Definition true_divide (a b : Z) : result spec_float :=
  match a, b with
  | _, Z0 => Raise ZeroDivisionError
  | Z0, _ => Ok (S754_zero (b <? 0))
  | _, _ =>
      let x := SFdiv prec emax
                 (S754_finite (a <? 0) (Z.to_pos (Z.abs a)) 0)
                 (S754_finite (b <? 0) (Z.to_pos (Z.abs b)) 0) in
      if finite x then Ok x else Raise OverflowError
  end.

(** [n * x] for an int [n] and a float [x]. *)
Definition int_mul (n : Z) (x : spec_float) : result spec_float :=
  match of_int n with
  | Ok y => Ok (SFmul prec emax y x)
  | Raise e => Raise e
  end.

(** [int(x)]: truncation towards zero. *)
Definition to_int (x : spec_float) : result Z :=
  match x with
  | S754_zero _ => Ok 0
  | S754_finite s m e =>
      let a := match e with
               | Zneg p => Z.shiftr (Zpos m) (Zpos p)
               | _ => Z.shiftl (Zpos m) e
               end in
      Ok (if s then - a else a)
  | S754_infinity _ => Raise OverflowError
  | S754_nan => Raise ValueError
  end.
End Float.

(** ** [strftime('%Y-%m-%d-%H%M')] *)

(** A number printed in decimal, zero-padded on the left to [width]. *)
Definition zero_pad (width : nat) (n : N) : string :=
  let s := pretty n in
  String.concat "" (replicate (width - String.length s) "0") +:+ s.

Definition strftime (dt : datetime) : string :=
  zero_pad 4 (year dt) +:+ "-" +:+ zero_pad 2 (month dt) +:+ "-" +:+
  zero_pad 2 (day dt) +:+ "-" +:+ zero_pad 2 (hour dt) +:+ zero_pad 2 (minute dt).

(** ** Images (Pillow) *)

(** An image is the Pillow calls that made it, over the raster of a file. *)
Inductive image :=
  | Raster (mode : string) (size : Z * Z) (samples : list N)
  | Resize (im : image) (size : Z * Z)
  | Convert (im : image) (mode : string)
  | New (mode : string) (size : Z * Z) (color : N * N * N)
  | LastBand (im : image)
  | Paste (background im : image) (mask : option image).

(** [img.mode], [img.size] and [img.resize(size, LANCZOS)]; Pillow refuses
    an empty target. *)
Module Image.
Fixpoint mode (im : image) : string :=
  match im with
  | Raster m _ _ => m
  | Resize im _ => mode im
  | Convert _ m => m
  | New m _ _ => m
  | LastBand _ => "L"
  | Paste background _ _ => mode background
  end.

Fixpoint size (im : image) : Z * Z :=
  match im with
  | Raster _ s _ => s
  | Resize _ s => s
  | Convert im _ => size im
  | New _ s _ => s
  | LastBand im => size im
  | Paste background _ _ => size background
  end.

Definition resize (im : image) (sz : Z * Z) : result image :=
  if (0 <? sz.1) && (0 <? sz.2) then Ok (Resize im sz) else Raise ValueError.
End Image.

(** ** Metadata (piexif) *)

(** A tag value: [bytes] for an ASCII tag, a number otherwise. *)
Inductive exif_value :=
  | Bytes (s : string)
  | Number (n : Z).

(** [piexif.load] returns a dict of IFDs ("0th", "Exif", "GPS", ...), each a
    dict from tag numbers to values. *)
Abbreviation exif_dict := (gmap string (gmap Z exif_value)).

Definition DateTimeOriginal : Z := 36867.
Definition DateTimeDigitized : Z := 36868.

(** ** Files *)

(** A path is a directory and an entry name. *)
Abbreviation path := (string * string)%type.

(** A file as the calls of the script see it. *)
Record file := {
  st_size : N;                   (* [Path.stat().st_size] *)
  mtime : datetime;              (* [datetime.fromtimestamp(os.path.getmtime(p))] *)
  exif : result exif_dict;       (* [piexif.load(str(p))] *)
  pil : result image             (* [Image.open(p)] *)
}.

(** What [img.save(path, 'JPEG', ...)] is given. *)
Record jpeg := {
  jpeg_image : image;
  jpeg_quality : Z;
  jpeg_optimize : bool;
  jpeg_progressive : bool;
  jpeg_exif : option string
}.

(** A directory entry: a file that was there, or one the transcoder wrote,
    with the way it reads back. *)
Inductive entry :=
  | Original (f : file)
  | Written (j : jpeg) (f : file).

Definition view (e : entry) : file :=
  match e with
  | Original f => f
  | Written _ f => f
  end.

(** ** Console *)

Inductive message :=
  | WarnNoExif (name : string)                                   (* line 48 *)
  | WarnExifError (name : string) (e : exn)                      (* line 53 *)
  | ErrorOptimizing (name : string) (e : exn)                    (* line 101 *)
  | NoImagesFound (input_dir : string)                           (* line 124 *)
  | Banner (found : nat) (output_dir backup_dir event_name : string)
           (max_width quality : Z)                               (* lines 127-132 *)
  | Processing (name new_filename : string)                      (* line 161 *)
  | Optimized (original_size optimized_size : Z)                 (* line 167 *)
  | ErrorProcessing (name : string) (e : exn)                    (* line 179 *)
  | SummaryRule                                                  (* line 183 *)
  | SummaryProcessed (processed : Z)                             (* line 184 *)
  | SummaryFailed (failed : Z)                                   (* line 186 *)
  | StorageSummary                                               (* line 187 *)
  | OriginalTotal (total : Z)                                    (* line 188 *)
  | OptimizedTotal (total : Z)                                   (* line 189 *)
  | SpaceSaved (original optimized : Z)                          (* line 190 *)
  | Locations (output_dir backup_dir : string)                   (* lines 191-193 *)
.

(** ** State *)

(** The file system, the console, and the four counters of
    [process_photos], which keep what was added to them when the body of the
    loop raises. *)
Record state := {
  fs : gmap path entry;
  stdout : list message;
  processed : Z;
  failed : Z;
  total_original_size : Z;
  total_optimized_size : Z
}.

Definition set_fs (g : gmap path entry → gmap path entry) (st : state) : state :=
  {| fs := g (fs st); stdout := stdout st;
     processed := processed st; failed := failed st;
     total_original_size := total_original_size st;
     total_optimized_size := total_optimized_size st |}.

Definition set_stdout (g : list message → list message) (st : state) : state :=
  {| fs := fs st; stdout := g (stdout st);
     processed := processed st; failed := failed st;
     total_original_size := total_original_size st;
     total_optimized_size := total_optimized_size st |}.

Definition set_processed (g : Z → Z) (st : state) : state :=
  {| fs := fs st; stdout := stdout st;
     processed := g (processed st); failed := failed st;
     total_original_size := total_original_size st;
     total_optimized_size := total_optimized_size st |}.

Definition set_failed (g : Z → Z) (st : state) : state :=
  {| fs := fs st; stdout := stdout st;
     processed := processed st; failed := g (failed st);
     total_original_size := total_original_size st;
     total_optimized_size := total_optimized_size st |}.

Definition set_total_original_size (g : Z → Z) (st : state) : state :=
  {| fs := fs st; stdout := stdout st;
     processed := processed st; failed := failed st;
     total_original_size := g (total_original_size st);
     total_optimized_size := total_optimized_size st |}.

Definition set_total_optimized_size (g : Z → Z) (st : state) : state :=
  {| fs := fs st; stdout := stdout st;
     processed := processed st; failed := failed st;
     total_original_size := total_original_size st;
     total_optimized_size := g (total_optimized_size st) |}.

(** ** The monad of the script: state and exceptions *)

Definition M (A : Type) : Type := state → result A * state.

Definition ret {A} (a : A) : M A := λ st, (Ok a, st).

Definition raise {A} (e : exn) : M A := λ st, (Raise e, st).

Definition bind {A B} (m : M A) (k : A → M B) : M B :=
  λ st, match m st with
        | (Ok a, st') => k a st'
        | (Raise e, st') => (Raise e, st')
        end.

(** [try: m except Exception as e: handler e] *)
Definition try_except {A} (m : M A) (handler : exn → M A) : M A :=
  λ st, match m st with
        | (Ok a, st') => (Ok a, st')
        | (Raise e, st') => handler e st'
        end.

Definition lift {A} (r : result A) : M A := λ st, (r, st).

Definition modify (g : state → state) : M unit := λ st, (Ok tt, g st).

Definition get {A} (g : state → A) : M A := λ st, (Ok (g st), st).

Notation "'let!' x ':=' m 'in' k" := (bind m (λ x, k))
  (at level 10, x binder, m at level 100, k at level 200).
Notation "m ';;' k" := (bind m (λ _, k))
  (at level 100, k at level 200, right associativity).

Definition print (msg : message) : M unit :=
  modify (set_stdout (λ out, out ++ [msg])).

(** ** File-system calls *)

Definition read {A} (p : path) (g : file → result A) : M A :=
  λ st, match fs st !! p with
        | Some e => (g (view e), st)
        | None => (Raise FileNotFoundError, st)
        end.

Definition Path_stat_st_size (p : path) : M Z :=
  read p (λ f, Ok (Z.of_N (st_size f))).

Definition getmtime (p : path) : M datetime :=
  read p (λ f, Ok (mtime f)).

Definition piexif_load (p : path) : M exif_dict := read p exif.

Definition Image_open (p : path) : M image := read p pil.

(** [shutil.copy2(src, dst)]: contents and metadata. *)
Definition shutil_copy2 (src dst : path) : M unit :=
  λ st, match fs st !! src with
        | None => (Raise FileNotFoundError, st)
        | Some e =>
            if decide (src = dst) then (Raise SameFileError, st)
            else (Ok tt, set_fs <[dst := e]> st)
        end.

(** ** The script *)

Section Script.

(** What the libraries compute and the script passes on. *)

(** [bytes.decode('utf-8')] then [datetime.strptime(_, "%Y:%m:%d %H:%M:%S")];
    [None] when either raises. *)
Variable strptime : string → option datetime.

(** [piexif.dump]: the serialised metadata block of a dict. *)
Variable piexif_dump : exif_dict → result string.

(** The JPEG encoder of Pillow: it raises, or writes a file that reads
    back in some way. *)
Variable jpeg_encode : jpeg → result file.

(** *** [get_exif_datetime], lines 29-56 *)

(** Line 42: [exif_dict["Exif"][tag].decode('utf-8')], then line 44. *)
Definition parse_value (v : exif_value) : result datetime :=
  match v with
  | Bytes s =>
      match strptime s with
      | Some dt => Ok dt
      | None => Raise ValueError
      end
  | Number _ => Raise AttributeError
  end.

(** Lines 40-45: the loop over the tags; [Ok None] when it runs to its
    end without a [return]. *)
Fixpoint scan_tags (datetime_tags : list Z) (exif_dict : exif_dict)
  : result (option datetime) :=
  match datetime_tags with
  | [] => Ok None
  | tag :: rest =>
      match default ∅ (exif_dict !! "Exif") !! tag with
      | Some v =>
          match parse_value v with
          | Ok dt => Ok (Some dt)
          | Raise e => Raise e
          end
      | None => scan_tags rest exif_dict
      end
  end.

Definition get_exif_datetime (image_path : path) : M datetime :=
  try_except
    (let! exif_dict := piexif_load image_path in
     let! found := lift (scan_tags [DateTimeOriginal; DateTimeDigitized] exif_dict) in
     match found with
     | Some dt => ret dt
     | None =>
         print (WarnNoExif image_path.2);;
         getmtime image_path
     end)
    (λ e,
       print (WarnExifError image_path.2 e);;
       getmtime image_path).

(** *** [optimize_image], lines 58-102 *)

(** Lines 65-68. *)
Definition read_exif_bytes (input_path : path) : M (option string) :=
  try_except
    (let! exif_dict := piexif_load input_path in
     let! exif_bytes := lift (piexif_dump exif_dict) in
     ret (Some exif_bytes))
    (λ _, ret None).

(** Lines 71-76. *)
Definition new_height (height max_width width : Z) : result Z :=
  match Float.true_divide max_width width with
  | Ok ratio =>
      match Float.int_mul height ratio with
      | Ok x => Float.to_int x
      | Raise e => Raise e
      end
  | Raise e => Raise e
  end.

Definition fit_width (img : image) (max_width : Z) : result image :=
  let '(width, height) := Image.size img in
  if width >? max_width then
    match new_height height max_width width with
    | Ok h => Image.resize img (max_width, h)
    | Raise e => Raise e
    end
  else Ok img.

(** Lines 79-86. *)
Definition to_rgb (img : image) : image :=
  if bool_decide (Image.mode img ∈ ["RGBA"; "LA"; "P"]) then
    let background := New "RGB" (Image.size img) (255, 255, 255)%N in
    let img := if bool_decide (Image.mode img = "P") then Convert img "RGBA" else img in
    Paste background img
      (if bool_decide (Image.mode img = "RGBA") then Some (LastBand img) else None)
  else if bool_decide (Image.mode img ≠ "RGB") then Convert img "RGB"
  else img.

(** Lines 89-97. *)
Definition save_kwargs (quality : Z) (exif_bytes : option string) (img : image) : jpeg :=
  {| jpeg_image := img;
     jpeg_quality := quality;
     jpeg_optimize := true;
     jpeg_progressive := true;
     jpeg_exif := match exif_bytes with
                  | Some b => if bool_decide (b = "") then None else Some b
                  | None => None
                  end |}.

Definition Image_save (j : jpeg) (output_path : path) : M unit :=
  λ st, match jpeg_encode j with
        | Ok f => (Ok tt, set_fs <[output_path := Written j f]> st)
        | Raise e => (Raise e, st)
        end.

Definition optimize_image (input_path output_path : path) (max_width quality : Z)
  : M bool :=
  try_except
    (let! img := Image_open input_path in
     let! exif_bytes := read_exif_bytes input_path in
     let! img := lift (fit_width img max_width) in
     let img := to_rgb img in
     Image_save (save_kwargs quality exif_bytes img) output_path;;
     ret true)
    (λ e,
       print (ErrorOptimizing input_path.2 e);;
       ret false).

(** *** [process_photos], lines 104-193 *)

(** Lines 146 and 152. *)
Definition base_filename (event_name : string) (dt : datetime) : string :=
  event_name +:+ "-" +:+ strftime dt +:+ ".jpg".

Definition numbered_filename (event_name : string) (dt : datetime) (counter : N) : string :=
  event_name +:+ "-" +:+ strftime dt +:+ "-" +:+ pretty counter +:+ ".jpg".

(** Lines 151-154: the loop, for at most [fuel] turns. *)
Fixpoint while_exists (fuel : nat) (dir : gmap path entry) (output_path : string)
    (event_name : string) (dt : datetime) (new_filename : string) (counter : N)
  : option (string * N) :=
  if bool_decide (is_Some (dir !! (output_path, new_filename))) then
    match fuel with
    | O => None
    | S fuel =>
        while_exists fuel dir output_path event_name dt
          (numbered_filename event_name dt counter) (counter + 1)%N
    end
  else Some (new_filename, counter).

(** Lines 146-154.  The loop leaves within [size dir] turns
    ([while_exists_terminates] below). *)
Definition unused_filename (output_path event_name : string) (dt : datetime)
  : M string :=
  get (λ st,
    let new_filename := base_filename event_name dt in
    match while_exists (size (fs st)) (fs st) output_path event_name dt new_filename 1%N with
    | Some (new_filename, _) => new_filename
    | None => new_filename
    end).

(** Line 166. *)
Definition reduction (optimized_size original_size : Z) : result unit :=
  if original_size =? 0 then Raise ZeroDivisionError else Ok tt.

(** Lines 141-180: the body of the loop. *)
Definition process_file (input_path output_path backup_path event_name : string)
    (max_width quality : Z) (name : string) : M unit :=
  let img_file := (input_path, name) in
  try_except
    (let! dt := get_exif_datetime img_file in
     let! new_filename := unused_filename output_path event_name dt in
     let output_file := (output_path, new_filename) in
     let! original_size := Path_stat_st_size img_file in
     modify (set_total_original_size (λ t, t + original_size));;
     print (Processing name new_filename);;
     let! ok := optimize_image img_file output_file max_width quality in
     if ok : bool then
       let! optimized_size := Path_stat_st_size output_file in
       modify (set_total_optimized_size (λ t, t + optimized_size));;
       lift (reduction optimized_size original_size);;
       print (Optimized original_size optimized_size);;
       let backup_file := (backup_path, name) in
       shutil_copy2 img_file backup_file;;
       modify (set_processed (λ n, n + 1))
     else
       modify (set_failed (λ n, n + 1)))
    (λ e,
       print (ErrorProcessing name e);;
       modify (set_failed (λ n, n + 1))).

(** Line 140: [for img_file in ...]. *)
Fixpoint for_each (body : string → M unit) (names : list string) : M unit :=
  match names with
  | [] => ret tt
  | name :: rest => body name;; for_each body rest
  end.

(** [Path.suffix] of an entry name. *)
Fixpoint rfind_dot (s : string) (i : nat) : option nat :=
  match s with
  | EmptyString => None
  | String c s =>
      match rfind_dot s (S i) with
      | Some j => Some j
      | None => if bool_decide (c = "."%char) then Some i else None
      end
  end.

Definition suffix (name : string) : string :=
  match rfind_dot name 0 with
  | Some i =>
      if bool_decide (0 < i < String.length name - 1)%nat
      then String.substring i (String.length name - i) name
      else ""
  | None => ""
  end.

(** Line 117. *)
Definition image_extensions : list string :=
  [".jpg"; ".jpeg"; ".png"; ".JPG"; ".JPEG"; ".PNG"].

(** Lines 120-121 and [sorted] of line 140: the entry names of
    [input_path] with an image extension, in order. *)
Definition image_files (input_path : string) (dir : gmap path entry) : list string :=
  merge_sort String.le
    (omap (λ p : path,
             if bool_decide (p.1 = input_path ∧ suffix p.2 ∈ image_extensions)
             then Some p.2 else None)
          (elements (dom dir))).

(** Line 113, on directory names without a trailing separator. *)
Definition backup_of (output_path : string) : string :=
  output_path +:+ "_originals".

(** Lines 183-193. *)
Definition summary (output_path backup_path : string) : M unit :=
  print SummaryRule;;
  let! processed := get processed in
  print (SummaryProcessed processed);;
  let! failed := get failed in
  (if 0 <? failed then print (SummaryFailed failed) else ret tt);;
  print StorageSummary;;
  let! total_original_size := get total_original_size in
  let! total_optimized_size := get total_optimized_size in
  print (OriginalTotal total_original_size);;
  print (OptimizedTotal total_optimized_size);;
  (if total_original_size =? 0 then raise ZeroDivisionError else ret tt);;
  print (SpaceSaved total_original_size total_optimized_size);;
  print (Locations output_path backup_path).

(** Lines 106-193, the two directories being there. *)
Definition process_photos (input_dir output_dir event_name : string)
    (max_width quality : Z) : M unit :=
  let input_path := input_dir in
  let output_path := output_dir in
  let backup_path := backup_of output_path in
  let! image_files := get (λ st, image_files input_path (fs st)) in
  if bool_decide (image_files = []) then
    print (NoImagesFound input_dir)
  else
    print (Banner (length image_files) output_path backup_path event_name
             max_width quality);;
    modify (set_processed (λ _, 0));;
    modify (set_failed (λ _, 0));;
    modify (set_total_original_size (λ _, 0));;
    modify (set_total_optimized_size (λ _, 0));;
    for_each (process_file input_path output_path backup_path event_name
                max_width quality) image_files;;
    summary output_path backup_path.


End Script.

(** ** Vocabulary of the specification *)

Section Vocabulary.

Variable strptime : string → option datetime.

(** The timestamp an embedded field yields, if the metadata can be read,
    the field is there and its text parses. *)
Definition embedded (f : file) (tag : Z) : option datetime :=
  match exif f with
  | Ok exif_dict =>
      match default ∅ (exif_dict !! "Exif") !! tag with
      | Some (Bytes s) => strptime s
      | _ => None
      end
  | Raise _ => None
  end.

(** Whether an embedded field is there at all. *)
Definition present (f : file) (tag : Z) : bool :=
  match exif f with
  | Ok exif_dict => bool_decide (is_Some (default ∅ (exif_dict !! "Exif") !! tag))
  | Raise _ => false
  end.


(** The first field that is there decides: its timestamp when it parses,
    the modification time when it does not. *)
Definition first_present (f : file) : datetime :=
  if present f DateTimeOriginal then
    default (mtime f) (embedded f DateTimeOriginal)
  else if present f DateTimeDigitized then
    default (mtime f) (embedded f DateTimeDigitized)
  else mtime f.

End Vocabulary.

Definition warning (msg : message) : bool :=
  match msg with
  | WarnNoExif _ | WarnExifError _ _ => true
  | _ => false
  end.

Section Transcoding.

Variable piexif_dump : exif_dict → result string.

(** The metadata block the transcoder reads from a file (lines 65-68),
    if it can. *)
Definition extracted (f : file) : option string :=
  match exif f with
  | Ok exif_dict =>
      match piexif_dump exif_dict with
      | Ok exif_bytes => Some exif_bytes
      | Raise _ => None
      end
  | Raise _ => None
  end.

End Transcoding.

(** The [k]-th candidate name: the base name, then the numbered ones. *)
Definition candidate (event_name : string) (dt : datetime) (k : N) : string :=
  if (k =? 0)%N then base_filename event_name dt
  else numbered_filename event_name dt k.

(** The output names a console log announces: those of the [Processing]
    lines that no [ErrorOptimizing] line follows. *)
Fixpoint outputs_logged (log : list message) : list string :=
  match log with
  | [] => []
  | Processing _ new_filename :: rest =>
      match rest with
      | ErrorOptimizing _ _ :: _ => outputs_logged rest
      | _ => new_filename :: outputs_logged rest
      end
  | _ :: rest => outputs_logged rest
  end.

Definition decimal (width : nat) (s : string) : bool :=
  bool_decide (String.length s = width) &&
  forallb (λ c, bool_decide (is_Some (Ascii.is_nat c))) (String.list_ascii_of_string s).

Section Summary.

Variable piexif_dump : exif_dict → result string.
Variable jpeg_encode : jpeg → result file.

(** What [optimize_image] hands to the encoder for a file, and the file
    the encoder writes; the exception when one of the steps raises. *)
Definition transcode (f : file) (max_width quality : Z) : result (jpeg * file) :=
  match pil f with
  | Ok img =>
      match fit_width img max_width with
      | Ok img' =>
          let j := save_kwargs quality (extracted piexif_dump f) (to_rgb img') in
          match jpeg_encode j with
          | Ok f' => Ok (j, f')
          | Raise x => Raise x
          end
      | Raise x => Raise x
      end
  | Raise x => Raise x
  end.

End Summary.

(** A log that does not end on a [Processing] line. *)
Definition settled (log : list message) : bool :=
  match last log with
  | Some (Processing _ _) => false
  | _ => true
  end.

(** The size a name of the input directory adds to the original total. *)
Definition original_size_of (dir : gmap path entry) (input_path name : string) : Z :=
  match dir !! (input_path, name) with
  | Some e => Z.of_N (st_size (view e))
  | None => 0
  end.

Definition original_sizes (dir : gmap path entry) (input_path : string)
    (names : list string) : Z :=
  foldr (λ name total, original_size_of dir input_path name + total) 0 names.


(** ** Sample inputs

    A library instance and a few files, for the examples below.  The sample
    [strptime] accepts only the zero-padded form [YYYY:MM:DD HH:MM:SS]. *)

Module Sample.

Definition digit (c : ascii) : option N :=
  let n := N_of_ascii c in
  if ((48 <=? n) && (n <=? 57))%N then Some (n - 48)%N else None.

Fixpoint digits (s : string) (acc : N) : option N :=
  match s with
  | EmptyString => Some acc
  | String c s =>
      match digit c with
      | Some d => digits s (10 * acc + d)%N
      | None => None
      end
  end.

Definition field (s : string) (i n : nat) : option N :=
  let t := String.substring i n s in
  if bool_decide (String.length t = n) then digits t 0 else None.

Definition strptime (s : string) : option datetime :=
  if bool_decide (String.length s = 19%nat ∧
                  String.get 4 s = Some ":"%char ∧ String.get 7 s = Some ":"%char ∧
                  String.get 10 s = Some " "%char ∧
                  String.get 13 s = Some ":"%char ∧ String.get 16 s = Some ":"%char)
  then
    y ← field s 0 4; mo ← field s 5 2; d ← field s 8 2;
    h ← field s 11 2; mi ← field s 14 2; se ← field s 17 2;
    if bool_decide (1 ≤ y ∧ 1 ≤ mo ≤ 12 ∧ 1 ≤ d ≤ 31 ∧ h ≤ 23 ∧ mi ≤ 59 ∧ se ≤ 59)%N
    then Some {| year := y; month := mo; day := d;
                 hour := h; minute := mi; second := se |}
    else None
  else None.

Definition piexif_dump (d : exif_dict) : result string := Ok "Exif".

Definition written_at : datetime :=
  {| year := 2025; month := 1; day := 1; hour := 12; minute := 0; second := 0 |}.

Definition encoded (j : jpeg) : file :=
  {| st_size := 1000; mtime := written_at;
     exif := Ok ∅; pil := Ok (jpeg_image j) |}.

Definition jpeg_encode (j : jpeg) : result file := Ok (encoded j).

Definition modified : datetime :=
  {| year := 2025; month := 3; day := 9; hour := 17; minute := 45; second := 30 |}.

(** A 4000x3000 RGB photograph with the given Exif IFD. *)
Definition photo (ifd : gmap Z exif_value) : file :=
  {| st_size := 5000; mtime := modified;
     exif := Ok {[ "Exif" := ifd ]};
     pil := Ok (Raster "RGB" (4000, 3000) []) |}.


(** A text file renamed to [.jpg]. *)
Definition not_an_image : file :=
  {| st_size := 120; mtime := modified;
     exif := Raise InvalidImageDataError;
     pil := Raise UnidentifiedImageError |}.

Definition state_of (dir : gmap path entry) : state :=
  {| fs := dir; stdout := [];
     processed := 0; failed := 0;
     total_original_size := 0; total_optimized_size := 0 |}.


Definition solstice_0800 : file :=
  photo {[ DateTimeOriginal := Bytes "2024:12:21 08:00:00" ]}.

Definition solstice_0805 : file :=
  photo {[ DateTimeOriginal := Bytes "2024:12:21 08:05:00" ]}.

(** A 2816x1408 RGB panorama without timestamp fields. *)
Definition panorama : file :=
  {| st_size := 4000; mtime := modified;
     exif := Ok {[ "Exif" := ∅ ]};
     pil := Ok (Raster "RGB" (2816, 1408) []) |}.

(** A PNG with an alpha channel: piexif does not read PNG files. *)
Definition logo : file :=
  {| st_size := 900; mtime := modified;
     exif := Raise InvalidImageDataError;
     pil := Ok (Raster "RGBA" (640, 480) []) |}.

End Sample.

(** ** Running the monad *)

Ltac run :=
  repeat (unfold bind, try_except, ret, raise, lift, print, modify, get, read,
            piexif_load, getmtime, Image_open, Path_stat_st_size;
          simpl).

Ltac fields :=
  unfold set_fs, set_stdout, set_processed, set_failed,
    set_total_original_size, set_total_optimized_size;
  simpl.

(** Decide the [bool_decide]s of the goal that are on closed terms. *)
Ltac decide_closed :=
  repeat match goal with
    | |- context [bool_decide ?P] =>
        first [ rewrite (bool_decide_eq_true_2 P) by (by apply (bool_decide_unpack _))
              | rewrite (bool_decide_eq_false_2 P) by (by apply (bool_decide_unpack _)) ];
        simpl
    end.

(** ** [main], lines 195-230 *)

(** The namespace [parser.parse_args()] returns, [--width] and [--quality]
    being converted by [type=int]. *)
Module Args.
Record t := {
  input : string;
  output : string;
  event : string;
  width : Z;
  quality : Z
}.
End Args.


(** Why [main] leaves through [sys.exit] before any photo is processed. *)
Inductive fatal :=
  | InvalidChoice (event : string)      (* argparse, line 211: status 2 *)
  | InputNotADirectory (input : string) (* lines 221-223 *)
  | QualityOutOfRange.                  (* lines 225-227 *)

Inductive outcome :=
  | Fatal (status : Z) (why : fatal)
  | Finished (status : Z).

Definition status (o : outcome) : Z :=
  match o with
  | Fatal status _ => status
  | Finished status => status
  end.

Section Main.

Variable strptime : string → option datetime.
Variable piexif_dump : exif_dict → result string.
Variable jpeg_encode : jpeg → result file.

(** [os.path.isdir]: which directories there are. *)
Variable isdir : string → bool.


End Main.

(** The number a string of decimal digits denotes. *)
Definition decimal_value (s : string) : N :=
  foldl (λ acc c, 10 * acc + (N_of_ascii c - 48))%N 0%N (String.list_ascii_of_string s).

(** * Properties *)

(** ** [get_exif_datetime] *)

Section GetExifDatetime.

Variable strptime : string → option datetime.

Lemma scan_tags_two (d : exif_dict) :
  scan_tags strptime [DateTimeOriginal; DateTimeDigitized] d =
    match default ∅ (d !! "Exif") !! DateTimeOriginal with
    | Some v => match parse_value strptime v with
                | Ok dt => Ok (Some dt) | Raise e => Raise e end
    | None =>
        match default ∅ (d !! "Exif") !! DateTimeDigitized with
        | Some v => match parse_value strptime v with
                    | Ok dt => Ok (Some dt) | Raise e => Raise e end
        | None => Ok None
        end
    end.
Proof.
  simpl. destruct (default ∅ (d !! "Exif") !! DateTimeOriginal); [done|].
  by destruct (default ∅ (d !! "Exif") !! DateTimeDigitized).
Qed.

(** What the function returns on a file that is there, and what it
    prints. *)
Lemma get_exif_datetime_spec (st : state) (p : path) (e : entry) :
  fs st !! p = Some e →
  ∃ st', get_exif_datetime strptime p st = (Ok (first_present strptime (view e)), st') ∧
         fs st' = fs st ∧
         processed st' = processed st ∧ failed st' = failed st ∧
         total_original_size st' = total_original_size st ∧
         total_optimized_size st' = total_optimized_size st ∧
         (stdout st' = stdout st ∧
            (is_Some (embedded strptime (view e) DateTimeOriginal) ∨
             is_Some (embedded strptime (view e) DateTimeDigitized)) ∨
          first_present strptime (view e) = mtime (view e) ∧
          ∃ w, stdout st' = stdout st ++ [w] ∧ warning w = true).
Proof.
  intros Hp. unfold get_exif_datetime, first_present, present, embedded.
  unfold try_except, bind, piexif_load, read, lift. rewrite Hp.
  destruct (exif (view e)) as [d|x] eqn:Hd.
  2: { run. rewrite Hp. run. eexists; (split; [reflexivity|]); simpl;
       repeat (split; [done|]); eauto 8. }
  rewrite scan_tags_two.
  destruct (default ∅ (d !! "Exif") !! DateTimeOriginal) as [v|] eqn:H1.
  - rewrite bool_decide_eq_true_2 by eauto.
    destruct v as [s|n]; simpl; [destruct (strptime s) as [dt|] eqn:Hs|];
      run; rewrite ?Hp; run; eexists; (split; [reflexivity|]); simpl;
      repeat (split; [done|]); rewrite ?Hs; simpl; eauto 8.
  - rewrite bool_decide_eq_false_2 by (intros [? ?]; done).
    destruct (default ∅ (d !! "Exif") !! DateTimeDigitized) as [v|] eqn:H2.
    + rewrite bool_decide_eq_true_2 by eauto.
      destruct v as [s|n]; simpl; [destruct (strptime s) as [dt|] eqn:Hs|];
        run; rewrite ?Hp; run; eexists; (split; [reflexivity|]); simpl;
        repeat (split; [done|]); rewrite ?Hs; simpl; eauto 8.
    + rewrite bool_decide_eq_false_2 by (intros [? ?]; done).
      run; rewrite ?Hp; run; eexists; (split; [reflexivity|]); simpl;
        repeat (split; [done|]); eauto 8.
Qed.

End GetExifDatetime.

(** ** [optimize_image] *)

Section OptimizeImage.

Variable piexif_dump : exif_dict → result string.
Variable jpeg_encode : jpeg → result file.

Lemma read_exif_bytes_spec (st : state) (p : path) (e : entry) :
  fs st !! p = Some e →
  read_exif_bytes piexif_dump p st = (Ok (extracted piexif_dump (view e)), st).
Proof.
  intros Hp. unfold read_exif_bytes, extracted. run. rewrite Hp.
  destruct (exif (view e)) as [d|x]; [|done].
  by destruct (piexif_dump d).
Qed.

(** The function never raises; it returns [True] exactly when the file
    opens, fits and encodes, and then the encoded file is at
    [output_path]. *)
Lemma optimize_image_spec (st : state) (input_path output_path : path)
    (max_width quality : Z) (e : entry) :
  fs st !! input_path = Some e →
  optimize_image piexif_dump jpeg_encode input_path output_path max_width quality st =
    match transcode piexif_dump jpeg_encode (view e) max_width quality with
    | Ok (j, f) => (Ok true, set_fs <[output_path := Written j f]> st)
    | Raise x =>
        (Ok false, set_stdout (λ out, out ++ [ErrorOptimizing input_path.2 x]) st)
    end.
Proof.
  intros Hp. unfold optimize_image, transcode.
  unfold try_except at 1. unfold bind at 1. unfold Image_open, read. rewrite Hp.
  destruct (pil (view e)) as [img|x]; [|done].
  unfold bind at 1. rewrite (read_exif_bytes_spec _ _ _ Hp).
  unfold bind at 1, lift.
  destruct (fit_width img max_width) as [img'|x]; [|done].
  unfold bind, Image_save, ret.
  by destruct (jpeg_encode _).
Qed.


Lemma to_rgb_mode (img : image) : Image.mode (to_rgb img) = "RGB".
Proof.
  unfold to_rgb. by repeat case_bool_decide.
Qed.

Lemma to_rgb_size (img : image) : Image.size (to_rgb img) = Image.size img.
Proof. unfold to_rgb. by repeat case_bool_decide. Qed.

Lemma fit_width_size (img img' : image) (max_width : Z) :
  fit_width img max_width = Ok img' →
  Image.size img' =
    if (Image.size img).1 >? max_width then
      (max_width,
       match new_height (Image.size img).2 max_width (Image.size img).1 with
       | Ok h => h
       | Raise _ => 0
       end)
    else Image.size img.
Proof.
  unfold fit_width. destruct (Image.size img) as [w h] eqn:Hs. simpl.
  destruct (w >? max_width).
  - destruct (new_height h max_width w) as [h'|]; [|done].
    unfold Image.resize. case_match; [|done]. by intros [= <-].
  - intros [= <-]. done.
Qed.

End OptimizeImage.

(** ** File names *)

Lemma string_length_app (s t : string) :
  String.length (s +:+ t) = (String.length s + String.length t)%nat.
Proof. induction s as [|c s IH]; simpl; [done|]. by rewrite IH. Qed.

Lemma string_app_inj_r (s1 s2 t : string) : s1 +:+ t = s2 +:+ t → s1 = s2.
Proof.
  revert s2. induction s1 as [|c s1 IH]; intros [|c' s2] H; simpl in H.
  - done.
  - apply (f_equal String.length) in H.
    rewrite !string_length_app in H. simpl in H. lia.
  - apply (f_equal String.length) in H.
    rewrite !string_length_app in H. simpl in H. lia.
  - injection H as -> H. f_equal. by apply IH.
Qed.

Section Filenames.

Variables (event_name : string) (dt : datetime).

Lemma candidate_0 : candidate event_name dt 0 = base_filename event_name dt.
Proof. done. Qed.

Lemma candidate_succ (k : N) :
  candidate event_name dt (k + 1) = numbered_filename event_name dt (k + 1).
Proof. unfold candidate. by destruct (N.eqb_spec (k + 1) 0); [lia|]. Qed.

Lemma numbered_inj (j k : N) :
  numbered_filename event_name dt j = numbered_filename event_name dt k → j = k.
Proof.
  unfold numbered_filename. intros H.
  do 4 apply String.app_inj in H.
  apply string_app_inj_r in H. by apply (inj pretty).
Qed.

Lemma base_not_numbered (k : N) :
  base_filename event_name dt ≠ numbered_filename event_name dt k.
Proof.
  unfold base_filename, numbered_filename. intros H.
  do 3 apply String.app_inj in H. done.
Qed.

Global Instance candidate_inj : Inj (=) (=) (candidate event_name dt).
Proof.
  intros j k. unfold candidate.
  destruct (N.eqb_spec j 0) as [->|Hj], (N.eqb_spec k 0) as [->|Hk]; intros H.
  - done.
  - by apply base_not_numbered in H.
  - symmetry in H. by apply base_not_numbered in H.
  - by apply numbered_inj.
Qed.

Variables (dir : gmap path entry) (output_path : string).

Lemma while_exists_found (fuel : nat) (k : N) (new_filename : string) (counter : N) :
  while_exists fuel dir output_path event_name dt
    (candidate event_name dt k) (k + 1) = Some (new_filename, counter) →
  ∃ j, (k ≤ j)%N ∧ new_filename = candidate event_name dt j ∧ counter = (j + 1)%N ∧
       dir !! (output_path, candidate event_name dt j) = None ∧
       ∀ i, (k ≤ i < j)%N → is_Some (dir !! (output_path, candidate event_name dt i)).
Proof.
  revert k. induction fuel as [|fuel IH]; intros k; simpl; case_bool_decide as Hk.
  - done.
  - intros [= <- <-]. exists k. split_and!; [lia|done|done| |intros; lia].
    by apply eq_None_not_Some.
  - rewrite <- candidate_succ. intros (j & Hj & -> & -> & Hfree & Hbelow)%IH.
    exists j. split_and!; [lia|done|done|done|].
    intros i Hi. destruct (decide (i = k)) as [->|]; [done|]. apply Hbelow. lia.
  - intros [= <- <-]. exists k. split_and!; [lia|done|done| |intros; lia].
    by apply eq_None_not_Some.
Qed.

Lemma while_exists_exhausted (fuel : nat) (k : N) :
  while_exists fuel dir output_path event_name dt
    (candidate event_name dt k) (k + 1) = None →
  ∀ i, (k ≤ i ≤ k + N.of_nat fuel)%N →
       is_Some (dir !! (output_path, candidate event_name dt i)).
Proof.
  revert k. induction fuel as [|fuel IH]; intros k; simpl; case_bool_decide as Hk;
    try done.
  - intros _ i Hi. by replace i with k by lia.
  - rewrite <- candidate_succ. intros H i Hi.
    destruct (decide (i = k)) as [->|]; [done|]. apply (IH _ H). lia.
Qed.

(** The loop of lines 151-154 ends: a directory of [n] entries cannot
    hold [n + 1] candidate names. *)
Lemma while_exists_terminates :
  is_Some (while_exists (size dir) dir output_path event_name dt
             (base_filename event_name dt) 1).
Proof.
  destruct (while_exists _ _ _ _ _ _ _) as [r|] eqn:Hloop; [by eexists|].
  exfalso. pose proof (while_exists_exhausted (size dir) 0 Hloop) as Hall.
  set (names := (λ i : nat, (output_path, candidate event_name dt (N.of_nat i)))
                  <$> seq 0 (S (size dir))).
  assert (NoDup names) as Hnd.
  { apply NoDup_fmap_2; [|apply NoDup_seq].
    intros i j [= H%(inj _)]. lia. }
  assert (names ⊆+ elements (dom dir)) as Hsub.
  { apply NoDup_submseteq; [done|]. intros p (i & -> & Hi)%list_elem_of_fmap.
    apply elem_of_elements, elem_of_dom, Hall.
    apply elem_of_seq in Hi. lia. }
  apply submseteq_length in Hsub.
  unfold names in Hsub. rewrite length_fmap, length_seq in Hsub.
  change (length (elements (dom dir))) with (size (dom dir)) in Hsub.
  rewrite size_dom in Hsub. lia.
Qed.

(** Lines 146-154 return the first candidate that is not in the output
    directory. *)
Lemma unused_filename_spec (st : state) :
  fs st = dir →
  ∃ k, unused_filename output_path event_name dt st =
         (Ok (candidate event_name dt k), st) ∧
       dir !! (output_path, candidate event_name dt k) = None ∧
       ∀ i, (i < k)%N → is_Some (dir !! (output_path, candidate event_name dt i)).
Proof.
  intros Hdir. unfold unused_filename, get. rewrite Hdir.
  destruct while_exists_terminates as [[new_filename counter] Hloop].
  rewrite Hloop.
  apply (while_exists_found _ 0) in Hloop as (j & _ & -> & _ & Hfree & Hbelow).
  exists j. split_and!; [done|done|]. intros i Hi. apply Hbelow. lia.
Qed.

End Filenames.

(** ** The body of the loop *)

Lemma bind_ok {A B} (m : M A) (k : A → M B) (st st' : state) (a : A) :
  m st = (Ok a, st') → bind m k st = k a st'.
Proof. unfold bind. by intros ->. Qed.

Lemma bind_raise {A B} (m : M A) (k : A → M B) (st st' : state) (x : exn) :
  m st = (Raise x, st') → bind m k st = (Raise x, st').
Proof. unfold bind. by intros ->. Qed.

Section ProcessFile.

Variable strptime : string → option datetime.
Variable piexif_dump : exif_dict → result string.
Variable jpeg_encode : jpeg → result file.
Variables (input_path output_path backup_path event_name : string).
Variables (max_width quality : Z).

#[local] Abbreviation body :=
  (process_file strptime piexif_dump jpeg_encode input_path output_path
     backup_path event_name max_width quality).

(** A name that is not in the input directory: the timestamp cannot be
    read, and the handler of line 178 counts a failure. *)
Lemma process_file_missing (st : state) (name : string) :
  fs st !! (input_path, name) = None →
  ∃ st', body name st = (Ok tt, st') ∧
         fs st' = fs st ∧
         stdout st' = stdout st ++ [WarnExifError name FileNotFoundError;
                                    ErrorProcessing name FileNotFoundError] ∧
         processed st' = processed st ∧ failed st' = failed st + 1 ∧
         total_original_size st' = total_original_size st ∧
         total_optimized_size st' = total_optimized_size st.
Proof.
  intros Hp. unfold process_file, get_exif_datetime. run. rewrite Hp. run.
  rewrite Hp. run. eexists; split; [done|]. simpl.
  by rewrite <- app_assoc.
Qed.

(** A file of the input directory, step by step. *)
Lemma process_file_spec (st : state) (name : string) (e : entry) :
  fs st !! (input_path, name) = Some e →
  ∃ k ws st',
    let new_filename := candidate event_name (first_present strptime (view e)) k in
    let output_file := (output_path, new_filename) in
    let original_size := Z.of_N (st_size (view e)) in
    body name st = (Ok tt, st') ∧
    fs st !! output_file = None ∧
    (∀ i, (i < k)%N →
       is_Some (fs st !! (output_path,
                          candidate event_name (first_present strptime (view e)) i))) ∧
    Forall (λ w, warning w = true) ws ∧
    total_original_size st' = total_original_size st + original_size ∧
    match transcode piexif_dump jpeg_encode (view e) max_width quality with
    | Raise x =>
        fs st' = fs st ∧
        stdout st' = stdout st ++ ws ++ [Processing name new_filename;
                                         ErrorOptimizing name x] ∧
        processed st' = processed st ∧ failed st' = failed st + 1 ∧
        total_optimized_size st' = total_optimized_size st
    | Ok (j, f) =>
        let optimized_size := Z.of_N (st_size f) in
        total_optimized_size st' = total_optimized_size st + optimized_size ∧
        if bool_decide (original_size = 0) then
          fs st' = <[output_file := Written j f]> (fs st) ∧
          stdout st' = stdout st ++ ws ++ [Processing name new_filename;
                                           ErrorProcessing name ZeroDivisionError] ∧
          processed st' = processed st ∧ failed st' = failed st + 1
        else if bool_decide (input_path = backup_path) then
          fs st' = <[output_file := Written j f]> (fs st) ∧
          stdout st' = stdout st ++ ws ++ [Processing name new_filename;
                                           Optimized original_size optimized_size;
                                           ErrorProcessing name SameFileError] ∧
          processed st' = processed st ∧ failed st' = failed st + 1
        else
          fs st' = <[(backup_path, name) := e]>
                     (<[output_file := Written j f]> (fs st)) ∧
          stdout st' = stdout st ++ ws ++ [Processing name new_filename;
                                           Optimized original_size optimized_size] ∧
          processed st' = processed st + 1 ∧ failed st' = failed st
    end.
Proof.
  intros Hp.
  destruct (get_exif_datetime_spec strptime st _ _ Hp)
    as (st1 & Hdt & Hfs1 & Hp1 & Hf1 & Ho1 & Hz1 & Hout1).
  destruct (unused_filename_spec event_name (first_present strptime (view e))
              (fs st) output_path st1 Hfs1) as (k & Hname & Hfree & Hbelow).
  assert (∃ ws, stdout st1 = stdout st ++ ws ∧ Forall (λ w, warning w = true) ws)
    as (ws & Hws & Hwarn).
  { destruct Hout1 as [[-> _]|[_ (w & -> & Hw)]].
    - exists []. by rewrite app_nil_r.
    - exists [w]. by repeat constructor. }
  exists k, ws.
  set (new_filename := candidate event_name (first_present strptime (view e)) k) in *.
  assert ((output_path, new_filename) ≠ (input_path, name)) as Hne
    by (intros Heq; rewrite Heq in Hfree; congruence).
  unfold process_file, try_except.
  rewrite (bind_ok _ _ _ _ _ Hdt), (bind_ok _ _ _ _ _ Hname).
  unfold bind at 1. unfold Path_stat_st_size at 1, read at 1.
  rewrite Hfs1, Hp.
  unfold bind at 1. unfold modify at 1.
  unfold bind at 1. unfold print at 1, modify at 1.
  unfold bind at 1.
  rewrite (optimize_image_spec _ _ _ _ _ _ _ e) by (simpl; by rewrite Hfs1).
  destruct (transcode _ _ _ _ _) as [[j f]|x]; simpl.
  - run. rewrite Hfs1, lookup_insert_eq. simpl.
    unfold reduction. destruct (Z.eqb_spec (Z.of_N (st_size (view e))) 0) as [H0|H0].
    + rewrite bool_decide_eq_true_2 by done. simpl.
      eexists; (split; [reflexivity|]); split_and!; fields;
        rewrite ?Hws, <- ?app_assoc, ?Hfs1, ?Hp1, ?Hf1, ?Ho1, ?Hz1; try done; lia.
    + rewrite bool_decide_eq_false_2 by done. simpl.
      unfold shutil_copy2. simpl. rewrite lookup_insert_ne, Hfs1, Hp by done.
      destruct (decide ((input_path, name) = (backup_path, name))) as [Heq|Hneq].
      * rewrite bool_decide_eq_true_2 by congruence. simpl.
        eexists; (split; [reflexivity|]); split_and!; fields;
        rewrite ?Hws, <- ?app_assoc, ?Hfs1, ?Hp1, ?Hf1, ?Ho1, ?Hz1; try done; lia.
      * rewrite bool_decide_eq_false_2 by congruence. simpl.
        eexists; (split; [reflexivity|]); split_and!; fields;
        rewrite ?Hws, <- ?app_assoc, ?Hfs1, ?Hp1, ?Hf1, ?Ho1, ?Hz1; try done; lia.
  - run. eexists; (split; [reflexivity|]); split_and!; fields;
        rewrite ?Hws, <- ?app_assoc, ?Hfs1, ?Hp1, ?Hf1, ?Ho1, ?Hz1; try done; lia.
Qed.

End ProcessFile.

(** ** Console logs *)

Lemma settled_app (l1 l2 : list message) :
  settled l2 = true → l2 ≠ [] → settled (l1 ++ l2) = true.
Proof.
  intros H Hne. unfold settled in *. rewrite last_app.
  destruct (last l2) eqn:Hl; [done|]. by apply last_None in Hl.
Qed.

Lemma outputs_logged_app (l1 l2 : list message) :
  settled l1 = true →
  outputs_logged (l1 ++ l2) = outputs_logged l1 ++ outputs_logged l2.
Proof.
  induction l1 as [|m l1 IH]; [done|]. intros Hs.
  assert (l1 = [] ∨ settled l1 = true) as [->|Hs1].
  { destruct l1 as [|m' l1]; [by left|right]. unfold settled in *.
    by rewrite last_cons_cons in Hs. }
  - destruct m; try done.
  - specialize (IH Hs1).
    destruct m; simpl; rewrite ?IH; try done.
    destruct l1 as [|m' l1]; [done|].
    simpl in *. destruct m'; by rewrite ?IH.
Qed.

Lemma outputs_logged_warnings (ws l : list message) :
  Forall (λ w, warning w = true) ws →
  outputs_logged (ws ++ l) = outputs_logged l.
Proof.
  induction 1 as [|w ws Hw _ IH]; [done|]. by destruct w.
Qed.

(** ** One turn of the loop *)

Section Step.

Variable strptime : string → option datetime.
Variable piexif_dump : exif_dict → result string.
Variable jpeg_encode : jpeg → result file.
Variables (input_path output_path backup_path event_name : string).
Variables (max_width quality : Z).

#[local] Abbreviation body :=
  (process_file strptime piexif_dump jpeg_encode input_path output_path
     backup_path event_name max_width quality).

(** What the loop needs of a turn, whether the file is there or not. *)
Lemma process_file_step (st : state) (name : string) :
  ∃ st' log,
    body name st = (Ok tt, st') ∧
    stdout st' = stdout st ++ log ∧ settled log = true ∧ log ≠ [] ∧
    processed st' + failed st' = processed st + failed st + 1 ∧
    (∀ p, is_Some (fs st !! p) → is_Some (fs st' !! p)) ∧
    (∀ p e, p.1 = input_path → fs st !! p = Some e → fs st' !! p = Some e) ∧
    total_original_size st' =
      total_original_size st + original_size_of (fs st) input_path name ∧
    (outputs_logged log = [] ∨
     ∃ new_filename,
       outputs_logged log = [new_filename] ∧
       fs st !! (output_path, new_filename) = None ∧
       is_Some (fs st' !! (output_path, new_filename))).
Proof.
  unfold original_size_of.
  destruct (fs st !! (input_path, name)) as [e|] eqn:Hp.
  - destruct (process_file_spec strptime piexif_dump jpeg_encode input_path
                output_path backup_path event_name max_width quality st name e Hp)
      as (k & ws & st' & Hrun & Hfree & _ & Hws & Horig & Hcase).
    set (new_filename := candidate event_name (first_present strptime (view e)) k) in *.
    assert ((output_path, new_filename) ≠ (input_path, name)) as Hne
      by (intros Heq; rewrite Heq in Hfree; congruence).
    exists st'.
    destruct (transcode _ _ _ _ _) as [[j f]|x].
    + destruct Hcase as [Hopt Hcase].
      repeat case_bool_decide; destruct Hcase as (Hfs & Hlog & Hproc & Hfail);
        eexists; (split; [done|]); (split; [done|]);
        (split; [by apply settled_app|]);
        (split; [by destruct ws|]);
        (split; [lia|]); rewrite Hfs;
        (split; [intros p [y Hy]; rewrite ?lookup_insert; repeat case_decide; eauto|]);
        (split; [intros p y Hdir Hy; rewrite ?lookup_insert; repeat case_decide;
                  naive_solver|]);
        (split; [done|]); right; exists new_filename;
        rewrite outputs_logged_warnings by done;
        (split; [done|]); (split; [done|]);
        rewrite ?lookup_insert; repeat case_decide; by eauto.
    + destruct Hcase as (Hfs & Hlog & Hproc & Hfail & Hopt).
      eexists; split_and!; try done.
      * by apply settled_app.
      * by destruct ws.
      * lia.
      * by rewrite Hfs.
      * intros p y _ Hy. by rewrite Hfs.
      * left. by rewrite outputs_logged_warnings.
  - destruct (process_file_missing strptime piexif_dump jpeg_encode input_path
                output_path backup_path event_name max_width quality st name Hp)
      as (st' & Hrun & Hfs & Hlog & Hproc & Hfail & Horig & Hopt).
    exists st'. eexists; split_and!; try done.
    + lia.
    + by rewrite Hfs.
    + intros p y _ Hy. by rewrite Hfs.
    + lia.
    + by left.
Qed.

Lemma settled_app_both (l1 l2 : list message) :
  settled l1 = true → settled l2 = true → settled (l1 ++ l2) = true.
Proof.
  intros H1 H2. destruct l2 as [|m l2]; [by rewrite app_nil_r|].
  by apply settled_app.
Qed.

(** The loop of line 140 over any list of names. *)
Lemma for_each_spec (names : list string) (st : state) :
  ∃ st' log,
    for_each body names st = (Ok tt, st') ∧
    stdout st' = stdout st ++ log ∧ settled log = true ∧
    processed st' + failed st' =
      processed st + failed st + Z.of_nat (length names) ∧
    (∀ p, is_Some (fs st !! p) → is_Some (fs st' !! p)) ∧
    (∀ p e, p.1 = input_path → fs st !! p = Some e → fs st' !! p = Some e) ∧
    (Forall (λ name, is_Some (fs st !! (input_path, name))) names →
     total_original_size st' =
       total_original_size st + original_sizes (fs st) input_path names) ∧
    NoDup (outputs_logged log) ∧
    ∀ new_filename, new_filename ∈ outputs_logged log →
      fs st !! (output_path, new_filename) = None ∧
      is_Some (fs st' !! (output_path, new_filename)).
Proof.
  revert st. induction names as [|name names IH]; intros st.
  - exists st, []. simpl. rewrite app_nil_r.
    split_and!; try done; [lia|intros _; simpl; lia|constructor|].
    by intros ? ?%elem_of_nil.
  - destruct (process_file_step st name)
      as (st1 & log1 & Hrun1 & Hlog1 & Hset1 & _ & Hcount1 & Hdom1 & Hin1 & Horig1 & Hout1).
    destruct (IH st1)
      as (st' & log2 & Hrun2 & Hlog2 & Hset2 & Hcount2 & Hdom2 & Hin2 & Horig2 & Hnd2 & Hout2).
    exists st', (log1 ++ log2). simpl for_each.
    rewrite (bind_ok _ _ _ _ _ Hrun1).
    split_and!.
    + done.
    + by rewrite Hlog2, Hlog1, app_assoc.
    + by apply settled_app_both.
    + rewrite length_cons. lia.
    + eauto.
    + eauto.
    + intros [Hname Hnames]%Forall_cons. rewrite Horig2, Horig1.
      * simpl. rewrite <- Z.add_assoc. f_equal. f_equal.
        clear -Hnames Hin1. induction Hnames as [|n ns [e Hn] _ IHn]; [done|].
        simpl. rewrite IHn. f_equal. unfold original_size_of.
        by rewrite Hn, (Hin1 (input_path, n) e eq_refl Hn).
      * eapply Forall_impl; [done|]. simpl. eauto.
    + rewrite outputs_logged_app by done.
      destruct Hout1 as [->|(nf & -> & Hfree & Hthere)]; [done|].
      simpl. apply NoDup_cons. split; [|done].
      intros [Hnone _]%Hout2. rewrite Hnone in Hthere. by destruct Hthere.
    + intros nf. rewrite outputs_logged_app by done.
      intros [Hnf|Hnf]%elem_of_app.
      * destruct Hout1 as [Hnil|(nf' & Heq & Hfree & Hthere)].
        -- rewrite Hnil in Hnf. by apply elem_of_nil in Hnf.
        -- rewrite Heq in Hnf. apply list_elem_of_singleton in Hnf as ->. eauto.
      * destruct (Hout2 _ Hnf) as [Hnone Hthere]. split; [|done].
        apply eq_None_not_Some. intros Hs%Hdom1. rewrite Hnone in Hs.
        by destruct Hs.
Qed.

End Step.

(** ** The batch *)

Lemma image_files_present (input_path name : string) (dir : gmap path entry) :
  name ∈ image_files input_path dir → is_Some (dir !! (input_path, name)).
Proof.
  unfold image_files. rewrite merge_sort_Permutation.
  intros ([d n] & Hp & Hf)%list_elem_of_omap.
  case_bool_decide as Hd; [|done]. simpl in *. destruct Hd as [-> _].
  injection Hf as ->. by apply elem_of_dom, elem_of_elements.
Qed.






Lemma all_below_spec (P : N → bool) (n : N) :
  N.recursion true (λ k acc, P k && acc) n = true → ∀ k, (k < n)%N → P k = true.
Proof.
  induction n as [|n IH] using N.peano_ind; intros Hall k Hk; [lia|].
  rewrite N.recursion_succ in Hall; [|done|solve_proper].
  apply andb_true_iff in Hall as [Hn Hall].
  destruct (decide (k = n)) as [->|]; [done|]. apply IH; [done|lia].
Qed.

Lemma zero_pad_decimal_2 (n : N) : (n < 100)%N → decimal 2 (zero_pad 2 n) = true.
Proof.
  apply (all_below_spec (λ k, decimal 2 (zero_pad 2 k))). by vm_compute.
Qed.

Lemma zero_pad_decimal_4 (n : N) : (n < 10000)%N → decimal 4 (zero_pad 4 n) = true.
Proof.
  apply (all_below_spec (λ k, decimal 4 (zero_pad 4 k))). by vm_compute.
Qed.


(** The state in which the loop starts: the banner printed, the counters
    at zero (lines 127-138). *)
Lemma process_photos_started (strptime : string → option datetime)
    (piexif_dump : exif_dict → result string) (jpeg_encode : jpeg → result file)
    (input_dir output_dir event_name : string) (max_width quality : Z) (st : state) :
  image_files input_dir (fs st) ≠ [] →
  ∃ st0,
    fs st0 = fs st ∧ processed st0 = 0 ∧ failed st0 = 0 ∧
    total_original_size st0 = 0 ∧ total_optimized_size st0 = 0 ∧
    stdout st0 = stdout st ++
      [Banner (length (image_files input_dir (fs st))) output_dir
         (backup_of output_dir) event_name max_width quality] ∧
    process_photos strptime piexif_dump jpeg_encode input_dir output_dir event_name
      max_width quality st =
      bind (for_each (process_file strptime piexif_dump jpeg_encode input_dir
                        output_dir (backup_of output_dir) event_name max_width quality)
              (image_files input_dir (fs st)))
           (λ _, summary output_dir (backup_of output_dir)) st0.
Proof.
  intros Hsome. eexists. split_and!; last first.
  - unfold process_photos. unfold bind at 1, get at 1.
    rewrite bool_decide_eq_false_2 by done.
    unfold bind at 1, print at 1, modify at 1.
    unfold bind at 1, modify at 1. unfold bind at 1, modify at 1.
    unfold bind at 1, modify at 1. unfold bind at 1, modify at 1.
    reflexivity.
  - done.
  - done.
  - done.
  - done.
  - done.
  - done.
Qed.

(** * Statements of the specification *)

(** ** The metadata reader *)






(** ** The transcoder *)



(** C8, as stated, fails: a 2816x1408 image fitted to 1920 pixels comes
    out 1920x959, where [floor(1408 * 1920 / 2816)] is 960.  Lines 73-75
    compute the ratio [1920 / 2816] in floating point first. *)
Lemma resize_height_counterexample :
  let st := Sample.state_of {[ ("in", "pano.jpg") := Original Sample.panorama ]} in
  let run := optimize_image Sample.piexif_dump Sample.jpeg_encode
               ("in", "pano.jpg") ("out", "pano.jpg") 1920 82 st in
  run.1 = Ok true ∧
  (∃ j f, fs run.2 !! ("out", "pano.jpg") = Some (Written j f) ∧
          Image.size (jpeg_image j) = (1920, 959)) ∧
  (1408 * 1920) `div` 2816 = 960.
Proof. vm_compute. split_and!; [done| |done]. by eexists _, _. Qed.

(** C8, amended: for an image of width [w] and height [h] that
    [optimize_image] transcodes with maximum width [M], the output has the
    size of the input when [w <= M], and otherwise width [M] and the height
    [int(h * (M / w))] that lines 73-75 compute with a floating-point
    ratio. *)
Theorem output_dimensions (piexif_dump : exif_dict → result string)
    (jpeg_encode : jpeg → result file) (st st' : state)
    (input_path output_path : path) (max_width quality : Z) (e : entry)
    (img : image) (w h : Z) :
  fs st !! input_path = Some e →
  pil (view e) = Ok img →
  Image.size img = (w, h) →
  optimize_image piexif_dump jpeg_encode input_path output_path max_width quality st
    = (Ok true, st') →
  ∃ j f, fs st' !! output_path = Some (Written j f) ∧
    (w ≤ max_width → Image.size (jpeg_image j) = (w, h)) ∧
    (w > max_width →
     ∃ h', new_height h max_width w = Ok h' ∧ Image.size (jpeg_image j) = (max_width, h')).
Proof.
  intros Hp Himg Hsize. rewrite (optimize_image_spec _ _ _ _ _ _ _ e Hp).
  unfold transcode. rewrite Himg.
  destruct (fit_width img max_width) as [img'|] eqn:Hfit; [|done]. simpl.
  destruct (jpeg_encode _) as [f|]; [|done]. intros [= <-].
  eexists _, f. simpl. rewrite lookup_insert_eq. split; [done|].
  unfold save_kwargs; simpl. rewrite to_rgb_size. unfold fit_width in Hfit. rewrite Hsize in Hfit.
  destruct (Z.gtb_spec w max_width) as [Hgt|Hle].
  - split; [lia|]. intros _.
    destruct (new_height h max_width w) as [h'|]; [|done].
    exists h'. split; [done|]. unfold Image.resize in Hfit.
    case_match; [|done]. by injection Hfit as <-.
  - split; [|lia]. intros _. by injection Hfit as <-.
Qed.

Lemma output_dimensions_witness :
  let st := Sample.state_of {[ ("in", "pano.jpg") := Original Sample.panorama ]} in
  ∃ j f,
    fs (optimize_image Sample.piexif_dump Sample.jpeg_encode
          ("in", "pano.jpg") ("out", "pano.jpg") 1920 82 st).2 !! ("out", "pano.jpg")
      = Some (Written j f) ∧
    ∃ h', new_height 1408 1920 2816 = Ok h' ∧ Image.size (jpeg_image j) = (1920, h').
Proof.
  intros st.
  destruct (output_dimensions Sample.piexif_dump Sample.jpeg_encode st
              (optimize_image Sample.piexif_dump Sample.jpeg_encode
                 ("in", "pano.jpg") ("out", "pano.jpg") 1920 82 st).2
              ("in", "pano.jpg") ("out", "pano.jpg") 1920 82 (Original Sample.panorama)
              (Raster "RGB" (2816, 1408) []) 2816 1408)
    as (j & f & Hout & _ & Hwide);
    [vm_compute; reflexivity..|].
  exists j, f. split; [exact Hout|]. apply Hwide. reflexivity.
Defined.



(** ** The batch loop *)



(** C10: when the transcoded output of a non-empty file was written and
    the backup copy then raises, the file is counted as failed and not as
    processed, the output stays where it was written, under a name that was
    free, and both byte sizes stay in the totals. *)
Theorem backup_failure_counted_as_failed (strptime : string → option datetime)
    (piexif_dump : exif_dict → result string) (jpeg_encode : jpeg → result file)
    (input_path output_path backup_path event_name : string) (max_width quality : Z)
    (st : state) (name : string) (e : entry) (j : jpeg) (f : file) (x : exn) :
  fs st !! (input_path, name) = Some e →
  transcode piexif_dump jpeg_encode (view e) max_width quality = Ok (j, f) →
  st_size (view e) ≠ 0%N →
  (shutil_copy2 (input_path, name) (backup_path, name) st).1 = Raise x →
  ∃ new_filename st',
    process_file strptime piexif_dump jpeg_encode input_path output_path
      backup_path event_name max_width quality name st = (Ok tt, st') ∧
    failed st' = failed st + 1 ∧
    processed st' = processed st ∧
    fs st !! (output_path, new_filename) = None ∧
    fs st' !! (output_path, new_filename) = Some (Written j f) ∧
    total_original_size st' = total_original_size st + Z.of_N (st_size (view e)) ∧
    total_optimized_size st' = total_optimized_size st + Z.of_N (st_size f).
Proof.
  intros Hp Htrans Hsize Hcopy.
  assert (input_path = backup_path) as Hsame.
  { unfold shutil_copy2 in Hcopy. rewrite Hp in Hcopy.
    destruct (decide ((input_path, name) = (backup_path, name))); [congruence|done]. }
  destruct (process_file_spec strptime piexif_dump jpeg_encode input_path
              output_path backup_path event_name max_width quality st name e Hp)
    as (k & ws & st' & Hrun & Hfree & _ & _ & Horig & Hcase).
  rewrite Htrans in Hcase. destruct Hcase as [Hopt Hcase].
  rewrite bool_decide_eq_false_2, bool_decide_eq_true_2 in Hcase by (done || lia).
  destruct Hcase as (Hfs & _ & Hproc & Hfail).
  eexists _, st'. split_and!; try done. by rewrite Hfs, lookup_insert_eq.
Qed.

Lemma backup_failure_counted_as_failed_witness :
  let st := Sample.state_of
              {[ ("photos_originals", "a.jpg") := Original Sample.solstice_0800 ]} in
  ∃ new_filename st',
    process_file Sample.strptime Sample.piexif_dump Sample.jpeg_encode
      "photos_originals" "photos" (backup_of "photos") "solstice" 1920 82 "a.jpg" st
      = (Ok tt, st') ∧
    failed st' = 1 ∧ processed st' = 0 ∧
    fs st !! ("photos", new_filename) = None ∧
    is_Some (fs st' !! ("photos", new_filename)) ∧
    total_original_size st' = 5000 ∧ total_optimized_size st' = 1000.
Proof.
  intros st.
  destruct (backup_failure_counted_as_failed Sample.strptime Sample.piexif_dump
              Sample.jpeg_encode "photos_originals" "photos" (backup_of "photos")
              "solstice" 1920 82 st "a.jpg" (Original Sample.solstice_0800)
              (save_kwargs 82 (Some "Exif")
                 (to_rgb (Resize (Raster "RGB" (4000, 3000) []) (1920, 1440))))
              (Sample.encoded
                 (save_kwargs 82 (Some "Exif")
                    (to_rgb (Resize (Raster "RGB" (4000, 3000) []) (1920, 1440)))))
              SameFileError)
    as (new_filename & st' & Hrun & Hfail & Hproc & Hfree & Hthere & Horig & Hopt);
    [vm_compute; reflexivity|vm_compute; reflexivity|discriminate|
     vm_compute; reflexivity|].
  exists new_filename, st'.
  split; [exact Hrun|]. split; [exact Hfail|]. split; [exact Hproc|].
  split; [exact Hfree|]. split; [rewrite Hthere; eexists; reflexivity|].
  split; [exact Horig|exact Hopt].
Defined.

(** ** Run statistics *)

(** C6, as stated, fails twice.  A file whose transcoding fails still adds
    its size to the original total (line 158 runs before line 162); and a
    file whose transcoding succeeds is counted as failed, with no backup
    made, when the backup copy raises. *)
Lemma statistics_counterexample :
  (let st := Sample.state_of {[ ("in", "scan.jpg") := Original Sample.not_an_image ]} in
   let st' := (process_file Sample.strptime Sample.piexif_dump Sample.jpeg_encode
                 "in" "out" (backup_of "out") "solstice" 1920 82 "scan.jpg" st).2 in
   transcode Sample.piexif_dump Sample.jpeg_encode Sample.not_an_image 1920 82
     = Raise UnidentifiedImageError ∧
   failed st' = failed st + 1 ∧
   total_original_size st = 0 ∧ total_original_size st' = 120) ∧
  (let st := Sample.state_of
               {[ ("photos_originals", "a.jpg") := Original Sample.solstice_0800 ]} in
   let st' := (process_file Sample.strptime Sample.piexif_dump Sample.jpeg_encode
                 "photos_originals" "photos" (backup_of "photos") "solstice" 1920 82
                 "a.jpg" st).2 in
   (∃ j f, transcode Sample.piexif_dump Sample.jpeg_encode Sample.solstice_0800 1920 82
             = Ok (j, f)) ∧
   processed st' = processed st ∧ failed st' = failed st + 1).
Proof. vm_compute. split_and!; try done. by eexists _, _. Qed.

(** C6, amended: for every file of the input directory, when transcoding
    succeeds the original and the optimized byte sizes are both added to
    the totals, and, the original being non-empty and the backup directory
    not being the input directory, the success count alone is incremented
    and the backup directory holds the original as it is; when transcoding
    fails the failure count alone is incremented, no file is written, and
    the optimized total does not change. *)
Theorem statistics_updated (strptime : string → option datetime)
    (piexif_dump : exif_dict → result string) (jpeg_encode : jpeg → result file)
    (input_path output_path backup_path event_name : string) (max_width quality : Z)
    (st : state) (name : string) (e : entry) :
  fs st !! (input_path, name) = Some e →
  ∃ st',
    process_file strptime piexif_dump jpeg_encode input_path output_path
      backup_path event_name max_width quality name st = (Ok tt, st') ∧
    match transcode piexif_dump jpeg_encode (view e) max_width quality with
    | Ok (j, f) =>
        total_original_size st' = total_original_size st + Z.of_N (st_size (view e)) ∧
        total_optimized_size st' = total_optimized_size st + Z.of_N (st_size f) ∧
        (st_size (view e) ≠ 0%N → input_path ≠ backup_path →
         processed st' = processed st + 1 ∧ failed st' = failed st ∧
         fs st' !! (backup_path, name) = Some e)
    | Raise _ =>
        failed st' = failed st + 1 ∧ processed st' = processed st ∧
        fs st' = fs st ∧
        total_optimized_size st' = total_optimized_size st
    end.
Proof.
  intros Hp.
  destruct (process_file_spec strptime piexif_dump jpeg_encode input_path
              output_path backup_path event_name max_width quality st name e Hp)
    as (k & ws & st' & Hrun & Hfree & _ & _ & Horig & Hcase).
  exists st'. split; [done|].
  destruct (transcode _ _ _ _ _) as [[j f]|x].
  - destruct Hcase as [Hopt Hcase]. split_and!; [done..|]. intros Hsize Hdirs.
    rewrite !bool_decide_eq_false_2 in Hcase by (done || lia).
    destruct Hcase as (Hfs & _ & Hproc & Hfail).
    split_and!; [done..|]. by rewrite Hfs, lookup_insert_eq.
  - by destruct Hcase as (Hfs & _ & Hproc & Hfail & Hopt).
Qed.

Lemma statistics_updated_witness :
  let st := Sample.state_of {[ ("in", "a.jpg") := Original Sample.solstice_0800 ]} in
  ∃ st',
    process_file Sample.strptime Sample.piexif_dump Sample.jpeg_encode
      "in" "out" (backup_of "out") "solstice" 1920 82 "a.jpg" st = (Ok tt, st') ∧
    total_original_size st' = 5000 ∧ total_optimized_size st' = 1000 ∧
    processed st' = 1 ∧ failed st' = 0 ∧
    fs st' !! (backup_of "out", "a.jpg") = Some (Original Sample.solstice_0800).
Proof.
  intros st.
  destruct (statistics_updated Sample.strptime Sample.piexif_dump Sample.jpeg_encode
              "in" "out" (backup_of "out") "solstice" 1920 82 st "a.jpg"
              (Original Sample.solstice_0800))
    as (st' & Hrun & Hcase); [vm_compute; reflexivity|].
  exists st'. split; [exact Hrun|].
  destruct Hcase as (Horig & Hopt & Hrest).
  destruct Hrest as (Hproc & Hfail & Hbackup); [discriminate|discriminate|].
  split; [exact Horig|]. split; [exact Hopt|]. split; [exact Hproc|].
  split; [exact Hfail|exact Hbackup].
Defined.

(** ** The summary *)




(** ** Output file names *)

Lemma string_app_assoc (s t u : string) : (s +:+ t) +:+ u = s +:+ t +:+ u.
Proof.
  induction s as [|c s IH]; [done|].
  change (String c ((s +:+ t) +:+ u) = String c (s +:+ t +:+ u)). by rewrite IH.
Qed.



(** The scenario of the specification: three photographs, two of them
    taken in the same minute. *)
Example solstice_scenario :
  let st := Sample.state_of {[ ("in", "IMG_1.jpg") := Original Sample.solstice_0800;
                               ("in", "IMG_2.jpg") := Original Sample.solstice_0805;
                               ("in", "IMG_3.jpg") := Original Sample.solstice_0800 ]} in
  let run := process_photos Sample.strptime Sample.piexif_dump Sample.jpeg_encode
               "in" "out" "solstice" 1920 82 st in
  run.1 = Ok tt ∧
  outputs_logged (stdout run.2) =
    ["solstice-2024-12-21-0800.jpg"; "solstice-2024-12-21-0805.jpg";
     "solstice-2024-12-21-0800-1.jpg"] ∧
  processed run.2 = 3 ∧ failed run.2 = 0.
Proof. vm_compute. split_and!; done. Qed.

(** A name derived for a file whose transcoding fails is not taken: the
    next file with the same timestamp is given the same name. *)
Example name_of_failed_transcoding_reused :
  let st := Sample.state_of {[ ("in", "a.jpg") := Original Sample.not_an_image;
                               ("in", "b.jpg") :=
                                 Original (Sample.photo ∅) ]} in
  let run := process_photos Sample.strptime Sample.piexif_dump Sample.jpeg_encode
               "in" "out" "solstice" 1920 82 st in
  filter (λ m, warning m = false) (take 6 (stdout run.2)) =
    [Banner 2 "out" "out_originals" "solstice" 1920 82;
     Processing "a.jpg" "solstice-2025-03-09-1745.jpg";
     ErrorOptimizing "a.jpg" UnidentifiedImageError;
     Processing "b.jpg" "solstice-2025-03-09-1745.jpg"] ∧
  outputs_logged (stdout run.2) = ["solstice-2025-03-09-1745.jpg"].
Proof. vm_compute. split; reflexivity. Qed.

(** * Further properties of the script *)

(** ** [get_exif_datetime] and [optimize_image] on their own *)

Lemma get_exif_datetime_missing_state (strptime : string → option datetime)
    (st : state) (image_path : path) :
  fs st !! image_path = None →
  get_exif_datetime strptime image_path st =
    (Raise FileNotFoundError,
     set_stdout (λ out, out ++ [WarnExifError image_path.2 FileNotFoundError]) st).
Proof.
  intros Hp. unfold get_exif_datetime. run. rewrite Hp. run. by rewrite Hp.
Qed.

(** X1: on a path that names no file, [get_exif_datetime] prints the
    warning of line 53 and then raises: the fallback of lines 55-56 is
    outside every [try]. *)
Theorem get_exif_datetime_missing (strptime : string → option datetime)
    (st : state) (image_path : path) :
  fs st !! image_path = None →
  get_exif_datetime strptime image_path st =
    (Raise FileNotFoundError,
     set_stdout (λ out, out ++ [WarnExifError image_path.2 FileNotFoundError]) st).
Proof. apply get_exif_datetime_missing_state. Qed.

Lemma get_exif_datetime_missing_witness :
  (get_exif_datetime Sample.strptime ("in", "gone.jpg") (Sample.state_of ∅)).1 =
    Raise FileNotFoundError.
Proof.
  rewrite (get_exif_datetime_missing Sample.strptime (Sample.state_of ∅)
             ("in", "gone.jpg")); reflexivity.
Defined.

(** X7: a listed file that is gone when its turn comes.  The turn prints
    the warning of the timestamp reader and the error line of line 179 and
    counts a failure; no size is added and the file system is not touched. *)
Theorem vanished_file_counted_as_failed (strptime : string → option datetime)
    (piexif_dump : exif_dict → result string) (jpeg_encode : jpeg → result file)
    (input_path output_path backup_path event_name : string) (max_width quality : Z)
    (st : state) (name : string) :
  fs st !! (input_path, name) = None →
  process_file strptime piexif_dump jpeg_encode input_path output_path backup_path
    event_name max_width quality name st =
    (Ok tt,
     set_failed (λ n, n + 1)
       (set_stdout (λ out, out ++ [ErrorProcessing name FileNotFoundError])
          (set_stdout (λ out, out ++ [WarnExifError name FileNotFoundError]) st))).
Proof.
  intros Hp. unfold process_file. unfold try_except at 1. unfold bind at 1.
  by rewrite get_exif_datetime_missing_state.
Qed.

Lemma vanished_file_counted_as_failed_witness :
  let st' := (process_file Sample.strptime Sample.piexif_dump Sample.jpeg_encode
                "in" "out" (backup_of "out") "solstice" 1920 82 "gone.jpg"
                (Sample.state_of ∅)).2 in
  failed st' = 1 ∧ processed st' = 0 ∧ total_original_size st' = 0 ∧ fs st' = ∅.
Proof.
  intros st'. unfold st'.
  rewrite (vanished_file_counted_as_failed Sample.strptime Sample.piexif_dump
             Sample.jpeg_encode "in" "out" (backup_of "out") "solstice" 1920 82
             (Sample.state_of ∅) "gone.jpg"); [|reflexivity].
  repeat split.
Defined.


(** X3: the maximum width is not checked anywhere.  With a maximum width
    of zero or less, or when the scaled height comes out as zero or less,
    an image wider than the maximum is not transcoded: [img.resize] refuses
    the size, [optimize_image] returns [False] and writes nothing. *)
Theorem empty_target_size_fails (piexif_dump : exif_dict → result string)
    (jpeg_encode : jpeg → result file) (st : state)
    (input_path output_path : path) (max_width quality : Z) (e : entry) (img : image) :
  fs st !! input_path = Some e →
  pil (view e) = Ok img →
  (Image.size img).1 > max_width →
  (∀ h, new_height (Image.size img).2 max_width (Image.size img).1 = Ok h →
        max_width ≤ 0 ∨ h ≤ 0) →
  ∃ x,
    optimize_image piexif_dump jpeg_encode input_path output_path max_width quality st
      = (Ok false, set_stdout (λ out, out ++ [ErrorOptimizing input_path.2 x]) st).
Proof.
  intros Hp Himg Hwide Hempty.
  rewrite (optimize_image_spec _ _ _ _ _ _ _ e Hp). unfold transcode. rewrite Himg.
  unfold fit_width. destruct (Image.size img) as [w h] eqn:Hsize. simpl in *.
  destruct (Z.gtb_spec w max_width) as [_|]; [|lia].
  destruct (new_height h max_width w) as [h'|x]; [|by exists x].
  unfold Image.resize. simpl.
  destruct (Z.ltb_spec 0 max_width), (Z.ltb_spec 0 h'); simpl;
    try by exists ValueError.
  destruct (Hempty h' eq_refl); lia.
Qed.

Lemma empty_target_size_fails_witness :
  let st := Sample.state_of {[ ("in", "a.jpg") := Original Sample.solstice_0800 ]} in
  ∃ x,
    optimize_image Sample.piexif_dump Sample.jpeg_encode
      ("in", "a.jpg") ("out", "a.jpg") 0 82 st
      = (Ok false, set_stdout (λ out, out ++ [ErrorOptimizing "a.jpg" x]) st).
Proof.
  intros st.
  apply (empty_target_size_fails Sample.piexif_dump Sample.jpeg_encode st
           ("in", "a.jpg") ("out", "a.jpg") 0 82 (Original Sample.solstice_0800)
           (Raster "RGB" (4000, 3000) [])).
  - reflexivity.
  - reflexivity.
  - reflexivity.
  - intros h _. left. reflexivity.
Defined.

(** X4: an RGB image that is not wider than the maximum reaches the
    encoder as it was opened: it is neither resampled nor converted. *)
Theorem rgb_image_within_width_untouched (piexif_dump : exif_dict → result string)
    (jpeg_encode : jpeg → result file) (st : state)
    (input_path output_path : path) (max_width quality : Z) (e : entry)
    (img : image) (f : file) :
  fs st !! input_path = Some e →
  pil (view e) = Ok img →
  Image.mode img = "RGB" →
  (Image.size img).1 ≤ max_width →
  jpeg_encode (save_kwargs quality (extracted piexif_dump (view e)) img) = Ok f →
  optimize_image piexif_dump jpeg_encode input_path output_path max_width quality st
    = (Ok true,
       set_fs <[output_path :=
                  Written (save_kwargs quality (extracted piexif_dump (view e)) img) f]> st).
Proof.
  intros Hp Himg Hmode Hfits Henc.
  rewrite (optimize_image_spec _ _ _ _ _ _ _ e Hp). unfold transcode. rewrite Himg.
  unfold fit_width. destruct (Image.size img) as [w h]. simpl in *.
  destruct (Z.gtb_spec w max_width) as [|_]; [lia|]. simpl.
  assert (to_rgb img = img) as ->.
  { unfold to_rgb. rewrite !Hmode. by decide_closed. }
  by rewrite Henc.
Qed.

Lemma rgb_image_within_width_untouched_witness :
  let st := Sample.state_of {[ ("in", "a.jpg") := Original Sample.solstice_0800 ]} in
  ∃ j f,
    optimize_image Sample.piexif_dump Sample.jpeg_encode
      ("in", "a.jpg") ("out", "a.jpg") 4000 82 st
      = (Ok true, set_fs <[("out", "a.jpg") := Written j f]> st) ∧
    jpeg_image j = Raster "RGB" (4000, 3000) [].
Proof.
  intros st. eexists _, _. split.
  - apply (rgb_image_within_width_untouched Sample.piexif_dump Sample.jpeg_encode st
             ("in", "a.jpg") ("out", "a.jpg") 4000 82 (Original Sample.solstice_0800)
             (Raster "RGB" (4000, 3000) [])); reflexivity.
  - reflexivity.
Defined.

(** X5: the colour normalisation of lines 79-86 keeps the size of the
    image and does nothing when applied a second time. *)
Theorem to_rgb_idempotent (img : image) :
  Image.size (to_rgb img) = Image.size img ∧ to_rgb (to_rgb img) = to_rgb img.
Proof.
  split; [apply to_rgb_size|].
  pose proof (to_rgb_mode img) as Hmode.
  unfold to_rgb at 1. rewrite !Hmode. by decide_closed.
Qed.

(** ** The list of image files *)

Lemma NoDup_omap_inj {A B} (f : A → option B) (l : list A) :
  (∀ x y z, x ∈ l → y ∈ l → f x = Some z → f y = Some z → x = y) →
  NoDup l → NoDup (omap f l).
Proof.
  intros Hinj Hnd. induction Hnd as [|x l Hx Hnd IH]; [constructor|].
  simpl. destruct (f x) as [z|] eqn:Hfx.
  - apply NoDup_cons. split.
    + intros (y & Hy & Hfy)%list_elem_of_omap.
      assert (x = y) as -> by (eapply Hinj; eauto; set_solver). done.
    + apply IH. intros. eapply Hinj; eauto; set_solver.
  - apply IH. intros. eapply Hinj; eauto; set_solver.
Qed.

(** X6: the files the loop goes through (lines 117-121 and 140) are
    exactly the entries of the input directory whose suffix is one of the
    six of line 117, each once, in ascending order of their names. *)
Theorem image_files_listing (input_path : string) (dir : gmap path entry) :
  (∀ name, name ∈ image_files input_path dir ↔
           is_Some (dir !! (input_path, name)) ∧ suffix name ∈ image_extensions) ∧
  NoDup (image_files input_path dir) ∧
  StronglySorted String.le (image_files input_path dir).
Proof.
  unfold image_files. split_and!.
  - intros name. rewrite merge_sort_Permutation, list_elem_of_omap. split.
    + intros ([d n] & Hp & Hf). case_bool_decide as Hd; [|done].
      simpl in *. destruct Hd as [-> Hsuf]. injection Hf as ->.
      split; [|done]. by apply elem_of_dom, elem_of_elements.
    + intros [Hthere Hsuf]. exists (input_path, name). split.
      * by apply elem_of_elements, elem_of_dom.
      * by rewrite bool_decide_eq_true_2.
  - rewrite merge_sort_Permutation. apply NoDup_omap_inj; [|apply NoDup_elements].
    intros [d1 n1] [d2 n2] z _ _ H1 H2. simpl in *.
    case_bool_decide as Ha; [|done]. case_bool_decide as Hb; [|done].
    destruct Ha as [Ha _], Hb as [Hb _]. congruence.
  - apply StronglySorted_merge_sort; apply _.
Qed.

(** ** What a run does to the file system *)


Lemma summary_frame (output_path backup_path : string) (st : state) :
  let st' := (summary output_path backup_path st).2 in
  fs st' = fs st ∧ processed st' = processed st ∧ failed st' = failed st ∧
  total_original_size st' = total_original_size st ∧
  total_optimized_size st' = total_optimized_size st.
Proof.
  unfold summary. run.
  destruct (0 <? failed st); run; destruct (total_original_size st =? 0); by run.
Qed.

Section Frame.

Variable strptime : string → option datetime.
Variable piexif_dump : exif_dict → result string.
Variable jpeg_encode : jpeg → result file.
Variables (input_path output_path backup_path event_name : string).
Variables (max_width quality : Z).

#[local] Abbreviation body :=
  (process_file strptime piexif_dump jpeg_encode input_path output_path
     backup_path event_name max_width quality).

(** The file system after a turn: as it was, or with a new output, or with
    a new output and the backup copy. *)
Lemma process_file_fs (st : state) (name : string) :
  ∃ st', body name st = (Ok tt, st') ∧
    (fs st' = fs st ∨
     ∃ new_filename j f,
       fs st !! (output_path, new_filename) = None ∧
       (fs st' = <[(output_path, new_filename) := Written j f]> (fs st) ∨
        ∃ e, fs st !! (input_path, name) = Some e ∧ input_path ≠ backup_path ∧
             fs st' = <[(backup_path, name) := e]>
                        (<[(output_path, new_filename) := Written j f]> (fs st)))).
Proof.
  destruct (fs st !! (input_path, name)) as [e|] eqn:Hp.
  - destruct (process_file_spec strptime piexif_dump jpeg_encode input_path
                output_path backup_path event_name max_width quality st name e Hp)
      as (k & ws & st' & Hrun & Hfree & _ & _ & _ & Hcase).
    exists st'. split; [done|].
    destruct (transcode _ _ _ _ _) as [[j f]|x].
    + right. eexists _, j, f. split; [done|]. destruct Hcase as [_ Hcase].
      repeat case_bool_decide; destruct Hcase as (Hfs & _); eauto 10.
    + left. by destruct Hcase as [Hfs _].
  - destruct (process_file_missing strptime piexif_dump jpeg_encode input_path
                output_path backup_path event_name max_width quality st name Hp)
      as (st' & Hrun & Hfs & _).
    exists st'. eauto.
Qed.

Lemma process_file_frame (st : state) (name : string) :
  ∃ st', body name st = (Ok tt, st') ∧
    (∀ p x, p.1 ≠ backup_path → fs st !! p = Some x → fs st' !! p = Some x) ∧
    (∀ p, is_Some (fs st !! p) → is_Some (fs st' !! p)) ∧
    (∀ p x, p.1 ≠ backup_path → fs st !! p = None → fs st' !! p = Some x →
            p.1 = output_path ∧ ∃ j f, x = Written j f) ∧
    (backup_path ≠ output_path →
     ∀ n x, fs st' !! (backup_path, n) = Some x →
            fs st !! (backup_path, n) = Some x ∨
            n = name ∧ fs st !! (input_path, name) = Some x).
Proof.
  destruct (process_file_fs st name) as (st' & Hrun & Hfs). exists st'.
  split; [done|].
  destruct Hfs as [->|(nf & j & f & Hfree & [->|(e & He & Hne & ->)])].
  - split_and!; eauto. intros p x _ Hnone Hsome. congruence.
  - split_and!.
    + intros p x _ Hp. rewrite lookup_insert_ne; [done|congruence].
    + intros p [x Hp]. rewrite lookup_insert. case_decide; eauto.
    + intros p x _ Hnone. rewrite lookup_insert. case_decide; [|congruence].
      intros [= <-]. subst p. eauto.
    + intros Hdirs n x. rewrite lookup_insert_ne; [eauto|]. congruence.
  - split_and!.
    + intros p x Hdir Hp. rewrite !lookup_insert_ne; [done|congruence|].
      intros <-. by apply Hdir.
    + intros p [x Hp]. rewrite !lookup_insert. repeat case_decide; eauto.
    + intros p x Hdir Hnone. rewrite lookup_insert_ne by (intros <-; by apply Hdir).
      rewrite lookup_insert. case_decide; [|congruence].
      intros [= <-]. subst p. eauto.
    + intros Hdirs n x. rewrite lookup_insert. case_decide as Heq.
      * intros [= <-]. right. split; [congruence|done].
      * rewrite lookup_insert_ne; [eauto|]. congruence.
Qed.

Lemma for_each_frame (names : list string) (st : state) :
  ∃ st', for_each body names st = (Ok tt, st') ∧
    (∀ p x, p.1 ≠ backup_path → fs st !! p = Some x → fs st' !! p = Some x) ∧
    (∀ p, is_Some (fs st !! p) → is_Some (fs st' !! p)) ∧
    (∀ p x, p.1 ≠ backup_path → fs st !! p = None → fs st' !! p = Some x →
            p.1 = output_path ∧ ∃ j f, x = Written j f) ∧
    (backup_path ≠ output_path →
     Forall (λ name, is_Some (fs st !! (input_path, name))) names →
     ∀ n x, fs st' !! (backup_path, n) = Some x →
            fs st !! (backup_path, n) = Some x ∨
            n ∈ names ∧ fs st !! (input_path, n) = Some x).
Proof.
  revert st. induction names as [|name names IH]; intros st.
  - exists st. split_and!; eauto. intros p x _ Hnone Hsome. congruence.
  - destruct (process_file_frame st name) as (st1 & Hrun1 & Hkeep1 & Hdom1 & Hnew1 & Hbak1).
    destruct (IH st1) as (st' & Hrun2 & Hkeep2 & Hdom2 & Hnew2 & Hbak2).
    exists st'. simpl for_each. rewrite (bind_ok _ _ _ _ _ Hrun1).
    split_and!; eauto.
    + intros p x Hdir Hnone Hsome.
      destruct (fs st1 !! p) as [y|] eqn:Hp1; [|eauto].
      destruct (Hnew1 p y Hdir Hnone Hp1) as [Hout (j & f & ->)].
      rewrite (Hkeep2 p _ Hdir Hp1) in Hsome. injection Hsome as <-. eauto.
    + intros Hdirs [Hname Hnames]%Forall_cons n x Hsome.
      destruct (Hbak2 Hdirs) with (n := n) (x := x) as [Hthere|[Hin Hthere]].
      * eapply Forall_impl; [done|]. simpl. eauto.
      * done.
      * destruct (Hbak1 Hdirs n x Hthere) as [?|[-> ?]]; [by left|].
        right. split; [apply elem_of_cons; by left|done].
      * destruct (decide (input_path = backup_path)) as [Heq|Hne].
        -- rewrite Heq in Hthere.
           destruct (Hbak1 Hdirs n x Hthere) as [?|[-> ?]]; [by left|].
           right. split; [apply elem_of_cons; by left|done].
        -- right. split; [apply elem_of_cons; by right|].
           rewrite Forall_forall in Hnames. destruct (Hnames n Hin) as [y Hy].
           rewrite (Hkeep1 (input_path, n) y Hne Hy) in Hthere. congruence.
Qed.

End Frame.

Section Run.

Variable strptime : string → option datetime.
Variable piexif_dump : exif_dict → result string.
Variable jpeg_encode : jpeg → result file.
Variables (input_dir output_dir event_name : string).
Variables (max_width quality : Z).

#[local] Abbreviation batch :=
  (process_photos strptime piexif_dump jpeg_encode input_dir output_dir
     event_name max_width quality).

#[local] Abbreviation turn :=
  (process_file strptime piexif_dump jpeg_encode input_dir output_dir
     (backup_of output_dir) event_name max_width quality).

(** A run over at least one image file: the loop from zeroed counters,
    then the summary. *)
Lemma process_photos_loop (st : state) :
  image_files input_dir (fs st) ≠ [] →
  ∃ st0 st1,
    fs st0 = fs st ∧ processed st0 = 0 ∧ failed st0 = 0 ∧
    total_original_size st0 = 0 ∧ total_optimized_size st0 = 0 ∧
    for_each turn (image_files input_dir (fs st)) st0 = (Ok tt, st1) ∧
    batch st = summary output_dir (backup_of output_dir) st1.
Proof.
  intros Hsome.
  destruct (process_photos_started strptime piexif_dump jpeg_encode input_dir
              output_dir event_name max_width quality st Hsome)
    as (st0 & Hfs0 & Hp0 & Hf0 & Ho0 & Hz0 & _ & Hrun).
  destruct (for_each_frame strptime piexif_dump jpeg_encode input_dir output_dir
              (backup_of output_dir) event_name max_width quality
              (image_files input_dir (fs st)) st0) as (st1 & Hloop & _).
  exists st0, st1. split_and!; try done.
  by rewrite Hrun, (bind_ok _ _ _ _ _ Hloop).
Qed.




(** The original total after the loop of a run. *)
Lemma process_photos_total (st : state) :
  image_files input_dir (fs st) ≠ [] →
  ∃ st1,
    batch st = summary output_dir (backup_of output_dir) st1 ∧
    total_original_size st1 =
      original_sizes (fs st) input_dir (image_files input_dir (fs st)) ∧
    processed st1 + failed st1 = Z.of_nat (length (image_files input_dir (fs st))).
Proof.
  intros Hsome.
  destruct (process_photos_loop st Hsome)
    as (st0 & st1 & Hfs0 & Hp0 & Hf0 & Ho0 & _ & Hloop & Hrun).
  destruct (for_each_spec strptime piexif_dump jpeg_encode input_dir output_dir
              (backup_of output_dir) event_name max_width quality
              (image_files input_dir (fs st)) st0)
    as (st1' & log & Hloop' & _ & _ & Hcount & _ & _ & Horig & _).
  rewrite Hloop in Hloop'. injection Hloop' as <-.
  exists st1. split_and!; [done| |lia].
  rewrite Horig, Ho0, Hfs0; [lia|].
  rewrite Hfs0. apply Forall_forall. intros n Hn. by apply image_files_present.
Qed.


(** X11: the original total of the summary covers every image file of the
    input directory, transcoded or not: after a run over at least one image
    file it is the sum of the sizes of all of them, and the two counts add
    up to their number, also when the summary itself raises. *)
Theorem run_totals_cover_all_files (st : state) :
  image_files input_dir (fs st) ≠ [] →
  total_original_size (batch st).2 =
    original_sizes (fs st) input_dir (image_files input_dir (fs st)) ∧
  processed (batch st).2 + failed (batch st).2 =
    Z.of_nat (length (image_files input_dir (fs st))).
Proof.
  intros Hsome.
  destruct (process_photos_total st Hsome) as (st1 & -> & Horig & Hcount).
  destruct (summary_frame output_dir (backup_of output_dir) st1)
    as (_ & -> & -> & -> & _).
  done.
Qed.

End Run.




Lemma run_totals_cover_all_files_witness :
  let st := Sample.state_of {[ ("in", "a.jpg") := Original Sample.solstice_0800;
                               ("in", "scan.jpg") := Original Sample.not_an_image ]} in
  let st' := (process_photos Sample.strptime Sample.piexif_dump Sample.jpeg_encode
                "in" "out" "solstice" 1920 82 st).2 in
  total_original_size st' = 5120 ∧ processed st' + failed st' = 2.
Proof.
  intros st st'.
  exact (run_totals_cover_all_files Sample.strptime Sample.piexif_dump
           Sample.jpeg_encode "in" "out" "solstice" 1920 82 st
           ltac:(vm_compute; discriminate)).
Defined.

Lemma image_files_listing_witness :
  let dir : gmap path entry :=
    {[ ("in", "b.JPG") := Original Sample.solstice_0805;
       ("in", "a.jpg") := Original Sample.solstice_0800;
       ("in", "notes.txt") := Original Sample.not_an_image ]} in
  "b.JPG" ∈ image_files "in" dir ∧ NoDup (image_files "in" dir).
Proof.
  intros dir.
  destruct (image_files_listing "in" dir) as (Hmem & Hnd & _).
  split; [|exact Hnd]. apply Hmem. split.
  - eexists. reflexivity.
  - apply (bool_decide_unpack _). reflexivity.
Defined.

(** ** When the script exits with status zero *)

Section Exit.

Variable strptime : string → option datetime.
Variable piexif_dump : exif_dict → result string.
Variable jpeg_encode : jpeg → result file.
Variable isdir : string → bool.




End Exit.


(** ** What a file name says about the timestamp *)

Lemma string_app_inj_length (s1 s2 t1 t2 : string) :
  String.length s1 = String.length s2 →
  s1 +:+ t1 = s2 +:+ t2 → s1 = s2 ∧ t1 = t2.
Proof.
  revert s2. induction s1 as [|c s1 IH]; intros [|c' s2] Hlen H; try done.
  injection Hlen as Hlen.
  change (String c (s1 +:+ t1) = String c' (s2 +:+ t2)) in H.
  injection H as -> H. destruct (IH _ Hlen H) as [-> ->]. done.
Qed.

Lemma decimal_length (width : nat) (s : string) :
  decimal width s = true → String.length s = width.
Proof.
  unfold decimal. intros [Hlen _]%andb_true_iff. by apply bool_decide_eq_true in Hlen.
Qed.

Lemma zero_pad_value_2 (n : N) : (n < 100)%N → decimal_value (zero_pad 2 n) = n.
Proof.
  intros Hn. apply N.eqb_eq. revert n Hn.
  apply (all_below_spec (λ k, decimal_value (zero_pad 2 k) =? k)%N). by vm_compute.
Qed.

Lemma zero_pad_value_4 (n : N) : (n < 10000)%N → decimal_value (zero_pad 4 n) = n.
Proof.
  intros Hn. apply N.eqb_eq. revert n Hn.
  apply (all_below_spec (λ k, decimal_value (zero_pad 4 k) =? k)%N). by vm_compute.
Qed.

(** X13: the base name keeps the timestamp down to the minute and nothing
    more.  For one event and two timestamps in the range of [datetime], the
    base names are equal exactly when year, month, day, hour and minute
    are: photographs of the same minute meet on one base name whatever
    their seconds, photographs of different minutes never do. *)
Theorem base_filename_same_minute (event_name : string) (dt1 dt2 : datetime) :
  (year dt1 < 10000 ∧ month dt1 < 100 ∧ day dt1 < 100 ∧
   hour dt1 < 100 ∧ minute dt1 < 100)%N →
  (year dt2 < 10000 ∧ month dt2 < 100 ∧ day dt2 < 100 ∧
   hour dt2 < 100 ∧ minute dt2 < 100)%N →
  base_filename event_name dt1 = base_filename event_name dt2 ↔
  year dt1 = year dt2 ∧ month dt1 = month dt2 ∧ day dt1 = day dt2 ∧
  hour dt1 = hour dt2 ∧ minute dt1 = minute dt2.
Proof.
  intros (Hy1 & Hm1 & Hd1 & HH1 & HM1) (Hy2 & Hm2 & Hd2 & HH2 & HM2).
  unfold base_filename, strftime. split.
  - intros H. do 2 apply String.app_inj in H.
    rewrite <- !string_app_assoc in H. apply string_app_inj_r in H.
    rewrite !string_app_assoc in H.
    pose proof (λ n Hn, decimal_length 4 _ (zero_pad_decimal_4 n Hn)) as Hlen4.
    pose proof (λ n Hn, decimal_length 2 _ (zero_pad_decimal_2 n Hn)) as Hlen2.
    apply string_app_inj_length in H as [Hy H]; [|by rewrite !Hlen4].
    apply String.app_inj in H.
    apply string_app_inj_length in H as [Hm H]; [|by rewrite !Hlen2].
    apply String.app_inj in H.
    apply string_app_inj_length in H as [Hd H]; [|by rewrite !Hlen2].
    apply String.app_inj in H.
    apply string_app_inj_length in H as [HH HM]; [|by rewrite !Hlen2].
    apply (f_equal decimal_value) in Hy, Hm, Hd, HH, HM.
    rewrite !zero_pad_value_4 in Hy by done.
    rewrite !zero_pad_value_2 in Hm, Hd, HH, HM by done.
    done.
  - by intros (-> & -> & -> & -> & ->).
Qed.

Lemma base_filename_same_minute_witness :
  let dt1 := {| year := 2024; month := 12; day := 21;
                hour := 8; minute := 0; second := 5 |} in
  let dt2 := {| year := 2024; month := 12; day := 21;
                hour := 8; minute := 0; second := 59 |} in
  base_filename "solstice" dt1 = base_filename "solstice" dt2.
Proof.
  intros dt1 dt2.
  apply (base_filename_same_minute "solstice" dt1 dt2);
    repeat split; reflexivity.
Defined.
